(** * sonarr-autoimport-go: filename extraction and catalog reconciliation

    A shallow embedding of [main.go] (the anime workflow): the transform
    pipeline, the pattern extractor, the reconciliation workflow against the
    catalog HTTP API, and the batch loop.

    Conventions.
    - A Go [string] is a sequence of bytes: [string] of the Standard Library.
    - A Go [int] is a 64-bit integer, modelled as [Z]; the code performs no
      arithmetic on the integers it reads apart from counting files.
    - The globals [config], [verbose] and [dryRun] are passed explicitly ([Env]).
    - Go's [regexp], [net/http], [encoding/json], [strings.ToLower],
      [filepath.Join] and [filepath.Base] are library code: the program is
      modelled over an interface [Runtime] that provides them, and the
      theorems hold for every implementation.  A concrete implementation
      ([GoRt]) is also given, to evaluate the program on concrete file names;
      it covers the regular-expression syntax of the default configuration.
    - Indexing a slice out of range panics in Go; a panic is an outcome of
      its own ([Panic]), distinct from a returned error. *)

From Stdlib Require Import String Ascii List ZArith Bool Lia PeanoNat.
From Stdlib Require Import DecimalString.
Import ListNotations.
Open Scope string_scope.
Open Scope Z_scope.

(** ** Strings *)

Module Str.

Definition len (s : string) : Z := Z.of_nat (String.length s).

Definition non_empty (s : string) : bool :=
  match s with EmptyString => false | String _ _ => true end.

Definition is_empty (s : string) : bool := negb (non_empty s).

Fixpoint rev_acc (s acc : string) : string :=
  match s with
  | EmptyString => acc
  | String c s' => rev_acc s' (String c acc)
  end.

Definition rev (s : string) : string := rev_acc s EmptyString.

(** [s[n:]] *)
Fixpoint drop (n : nat) (s : string) : string :=
  match n, s with
  | O, _ => s
  | S n', String _ s' => drop n' s'
  | S _, EmptyString => EmptyString
  end.

(** [s[a:b]] *)
Definition slice (a b : nat) (s : string) : string :=
  String.substring a (b - a) s.

Definition byte (n : nat) : ascii := ascii_of_nat n.

Definition code (c : ascii) : nat := nat_of_ascii c.

(** [strings.HasPrefix] *)
Definition HasPrefix (s p : string) : bool := String.prefix p s.

(** [strings.HasSuffix] *)
Definition HasSuffix (s p : string) : bool := String.prefix (rev p) (rev s).

(** [strings.TrimSuffix]: [s] without the trailing [suffix], or [s] itself. *)
Definition TrimSuffix (s suffix : string) : string :=
  if HasSuffix s suffix
  then String.substring 0 (String.length s - String.length suffix) s
  else s.

(** [strings.Contains] *)
Fixpoint Contains (s sub : string) : bool :=
  String.prefix sub s
  || match s with
     | EmptyString => false
     | String _ s' => Contains s' sub
     end.

Fixpoint trim_left_byte (c : ascii) (s : string) : string :=
  match s with
  | String a s' => if Ascii.eqb a c then trim_left_byte c s' else s
  | EmptyString => s
  end.

(** [strings.TrimRight(s, "/")]: the cutset of the program is the single
    byte ['/']. *)
Definition TrimRightSlash (s : string) : string :=
  rev (trim_left_byte "/"%char (rev s)).

(** [%d] of [fmt.Sprintf]. *)
Definition itoa (z : Z) : string := NilZero.string_of_int (Z.to_int z).

End Str.

(** ** Go library functions with a closed definition *)

Module Go.

(** The white space of [unicode.IsSpace], by UTF-8 encoding: the six ASCII
    bytes of [asciiSpace], U+0085, U+00A0, U+1680, U+2000..U+200A, U+2028,
    U+2029, U+202F, U+205F, U+3000. *)
Definition bytes (l : list nat) : string :=
  fold_right (fun n s => String (Str.byte n) s) EmptyString l.

Definition space_codes : list (list nat) :=
  List.app
    [ [9]; [10]; [11]; [12]; [13]; [32];
      [194; 133]; [194; 160]; [225; 154; 128] ]%nat
    (List.app
       (map (fun n => [226; 128; n]%nat) (seq 128 11))
       [ [226; 128; 168]; [226; 128; 169]; [226; 128; 175];
         [226; 129; 159]; [227; 128; 128] ]%nat).

Definition spaces : list string := map bytes space_codes.

(** The first element of [ps] that is a prefix of [s], if any. *)
Definition leading (ps : list string) (s : string) : option string :=
  find (fun p => String.prefix p s) ps.

Fixpoint trim_left (fuel : nat) (ps : list string) (s : string) : string :=
  match fuel with
  | O => s
  | S fuel' =>
      match leading ps s with
      | Some p => trim_left fuel' ps (Str.drop (String.length p) s)
      | None => s
      end
  end.

Definition TrimLeftSpace (s : string) : string :=
  trim_left (String.length s) spaces s.

Definition TrimRightSpace (s : string) : string :=
  Str.rev (trim_left (String.length s) (map Str.rev spaces) (Str.rev s)).

(** [strings.TrimSpace] *)
Definition TrimSpace (s : string) : string :=
  TrimRightSpace (TrimLeftSpace s).

Definition digit (c : ascii) : option Z :=
  let n := Str.code c in
  if ((48 <=? n) && (n <=? 57))%nat then Some (Z.of_nat (n - 48)) else None.

Fixpoint digits (s : string) (acc : Z) : option Z :=
  match s with
  | EmptyString => Some acc
  | String c s' =>
      match digit c with
      | Some d => digits s' (acc * 10 + d)
      | None => None
      end
  end.

Definition minInt : Z := - 2 ^ 63.
Definition maxInt : Z := 2 ^ 63 - 1.

(** [strconv.Atoi]: an optional sign and at least one decimal digit; [None]
    stands for a non-nil error (syntax, or value out of the range of [int]). *)
Definition Atoi (s : string) : option Z :=
  let '(neg, ds) :=
    match s with
    | String "-" s' => (true, s')
    | String "+" s' => (false, s')
    | _ => (false, s)
    end in
  if Str.is_empty ds then None
  else match digits ds 0 with
       | Some n =>
           let v := if (neg : bool) then - n else n in
           if (minInt <=? v) && (v <=? maxInt) then Some v else None
       | None => None
       end.

Fixpoint ext_rev (r acc : string) : string :=
  match r with
  | EmptyString => EmptyString
  | String c r' =>
      if Ascii.eqb c "."%char then String "."%char acc
      else if Ascii.eqb c "/"%char then EmptyString
      else ext_rev r' (String c acc)
  end.

(** [filepath.Ext]: the suffix from the last dot of the last path element,
    empty when that element has no dot. *)
Definition Ext (path : string) : string := ext_rev (Str.rev path) EmptyString.

End Go.

(** ** A regular-expression engine for the syntax the configuration uses

    Go's [regexp] finds the leftmost match and, among the matches that start
    there, the one a backtracking search finds first.  The engine below is
    that backtracking search, over bytes.  It reads literals, [.], the
    escapes [\d \s \w \D \S \W], escaped punctuation, bracket classes with
    ranges and negation, capturing and [(?:...)] groups, alternation, the
    quantifiers [* + ?] and their lazy forms, and the anchors [^ $].
    A pattern outside this syntax is not compiled here. *)

Module Re.

Open Scope nat_scope.

Record CharClass : Set := MkClass {
  negated : bool;
  ranges : list (nat * nat)
}.

Inductive Regexp : Set :=
| REmpty
| RChar (c : CharClass)
| RBol
| REol
| RCat (a b : Regexp)
| RAlt (a b : Regexp)
| RStar (greedy : bool) (a : Regexp)
| RGroup (n : nat) (a : Regexp).

Definition in_class (c : CharClass) (a : ascii) : bool :=
  let n := Str.code a in
  xorb (negated c)
       (existsb (fun r => (fst r <=? n) && (n <=? snd r)) (ranges c)).

Definition perl_d : list (nat * nat) := [(48, 57)].
Definition perl_s : list (nat * nat) := [(9, 10); (12, 13); (32, 32)].
Definition perl_w : list (nat * nat) := [(48, 57); (65, 90); (95, 95); (97, 122)].

Definition lit (a : ascii) : Regexp :=
  RChar (MkClass false [(Str.code a, Str.code a)]).

(** [.] without the [s] flag: any byte but the line feed. *)
Definition any_char : Regexp := RChar (MkClass true [(10, 10)]).

Inductive Escape : Set :=
| EClass (neg : bool) (rs : list (nat * nat))
| ELit (n : nat).

Definition is_alnum (n : nat) : bool :=
  ((48 <=? n) && (n <=? 57)) || ((65 <=? n) && (n <=? 90))
  || ((97 <=? n) && (n <=? 122)).

Definition escape (c : ascii) : option Escape :=
  match c with
  | "d"%char => Some (EClass false perl_d)
  | "s"%char => Some (EClass false perl_s)
  | "w"%char => Some (EClass false perl_w)
  | "D"%char => Some (EClass true perl_d)
  | "S"%char => Some (EClass true perl_s)
  | "W"%char => Some (EClass true perl_w)
  | "t"%char => Some (ELit 9)
  | "n"%char => Some (ELit 10)
  | "v"%char => Some (ELit 11)
  | "f"%char => Some (ELit 12)
  | "r"%char => Some (ELit 13)
  | _ =>
      let n := Str.code c in
      if (n <? 128) && negb (is_alnum n) then Some (ELit n) else None
  end.

(** The items of a bracket class up to its closing bracket.  [first] is
    true at the first item, where a closing bracket is a literal. *)
Fixpoint parse_class (s : string) (first : bool) (acc : list (nat * nat))
  : option (list (nat * nat) * string) :=
  match s with
  | EmptyString => None
  | String "]" s' =>
      if first then parse_class s' false (acc ++ [(93, 93)])%list
      else Some (acc, s')
  | String "[" (String ":" _) => None
  | String "\" (String c s') =>
      match escape c with
      | Some (EClass false rs) => parse_class s' false (acc ++ rs)%list
      | Some (ELit n) => parse_class s' false (acc ++ [(n, n)])%list
      | _ => None
      end
  | String "\" EmptyString => None
  | String lo (String "-" (String hi s')) =>
      if Ascii.eqb hi "]" then
        Some ((acc ++ [(Str.code lo, Str.code lo); (45, 45)])%list, s')
      else if Ascii.eqb hi "\" then None
      else if Str.code lo <=? Str.code hi
           then parse_class s' false (acc ++ [(Str.code lo, Str.code hi)])%list
           else None
  | String c s' => parse_class s' false (acc ++ [(Str.code c, Str.code c)])%list
  end.

Definition cat (a b : Regexp) : Regexp :=
  match b with REmpty => a | _ => RCat a b end.

Definition is_quantifier (c : ascii) : bool :=
  Ascii.eqb c "*" || Ascii.eqb c "+" || Ascii.eqb c "?" || Ascii.eqb c "{".

(** [a] under the quantifier [q], greedy or lazy. *)
Definition quantify (q : ascii) (greedy : bool) (a : Regexp) : Regexp :=
  if Ascii.eqb q "*" then RStar greedy a
  else if Ascii.eqb q "+" then RCat a (RStar greedy a)
  else if greedy then RAlt a REmpty else RAlt REmpty a.

(** The quantifier that may follow an atom. *)
Definition parse_quantifier (a : Regexp) (s : string) : option (Regexp * string) :=
  match s with
  | String "{" _ => None
  | String q s' =>
      if is_quantifier q then
        let '(greedy, s'') :=
          match s' with
          | String "?" t => (false, t)
          | _ => (true, s')
          end in
        match s'' with
        | String q' _ =>
            if is_quantifier q' then None else Some (quantify q greedy a, s'')
        | EmptyString => Some (quantify q greedy a, s'')
        end
      else Some (a, s)
  | EmptyString => Some (a, s)
  end.

(** Recursive descent; [n] is the index of the next capturing group. *)
Fixpoint parse_alt (fuel : nat) (s : string) (n : nat) {struct fuel}
  : option (Regexp * string * nat) :=
  match fuel with
  | O => None
  | S f =>
      match parse_cat f s n with
      | Some (a, String "|" s', n') =>
          match parse_alt f s' n' with
          | Some (b, s'', n'') => Some (RAlt a b, s'', n'')
          | None => None
          end
      | r => r
      end
  end
with parse_cat (fuel : nat) (s : string) (n : nat) {struct fuel}
  : option (Regexp * string * nat) :=
  match fuel with
  | O => None
  | S f =>
      match s with
      | EmptyString | String "|" _ | String ")" _ => Some (REmpty, s, n)
      | _ =>
          match parse_rep f s n with
          | Some (a, s', n') =>
              match parse_cat f s' n' with
              | Some (b, s'', n'') => Some (cat a b, s'', n'')
              | None => None
              end
          | None => None
          end
      end
  end
with parse_rep (fuel : nat) (s : string) (n : nat) {struct fuel}
  : option (Regexp * string * nat) :=
  match fuel with
  | O => None
  | S f =>
      let atom :=
        match s with
        | String "(" (String "?" (String ":" s')) =>
            match parse_alt f s' n with
            | Some (a, String ")" s'', n') => Some (a, s'', n')
            | _ => None
            end
        | String "(" (String "?" _) => None
        | String "(" s' =>
            match parse_alt f s' (S n) with
            | Some (a, String ")" s'', n') => Some (RGroup n a, s'', n')
            | _ => None
            end
        | String "[" (String "^" s') =>
            match parse_class s' true [] with
            | Some (rs, s'') => Some (RChar (MkClass true rs), s'', n)
            | None => None
            end
        | String "[" s' =>
            match parse_class s' true [] with
            | Some (rs, s'') => Some (RChar (MkClass false rs), s'', n)
            | None => None
            end
        | String "\" (String c s') =>
            match escape c with
            | Some (EClass neg rs) => Some (RChar (MkClass neg rs), s', n)
            | Some (ELit k) => Some (RChar (MkClass false [(k, k)]), s', n)
            | None => None
            end
        | String "\" EmptyString => None
        | String "." s' => Some (any_char, s', n)
        | String "^" s' => Some (RBol, s', n)
        | String "$" s' => Some (REol, s', n)
        | String c s' =>
            if is_quantifier c then None else Some (lit c, s', n)
        | EmptyString => None
        end in
      match atom with
      | Some (a, s', n') =>
          match parse_quantifier a s' with
          | Some (a', s'') => Some (a', s'', n')
          | None => None
          end
      | None => None
      end
  end.

(** [regexp.Compile]; [None] stands for a non-nil error. *)
Definition Compile (pattern : string) : option Regexp :=
  match parse_alt (3 * String.length pattern + 3) pattern 1 with
  | Some (r, EmptyString, _) => Some r
  | _ => None
  end.

(** *** Matching *)

(** The captures recorded so far, most recent first: group, start, end. *)
Definition Caps : Set := list (nat * (nat * nat)).

Definition Cont : Set := nat -> string -> Caps -> option (nat * Caps).

(** [run r pos rest caps k]: match [r] at offset [pos], where the text that
    remains is [rest], then continue with [k]; alternatives are tried in
    priority order.  An iteration of a star that consumes nothing is not
    taken, so a star runs at most once per remaining byte. *)
Fixpoint run (r : Regexp) (pos : nat) (rest : string) (caps : Caps) (k : Cont)
  {struct r} : option (nat * Caps) :=
  match r with
  | REmpty => k pos rest caps
  | RChar c =>
      match rest with
      | String a rest' => if in_class c a then k (S pos) rest' caps else None
      | EmptyString => None
      end
  | RBol => if pos =? 0 then k pos rest caps else None
  | REol =>
      match rest with
      | EmptyString => k pos rest caps
      | String _ _ => None
      end
  | RCat a b => run a pos rest caps (fun p s c => run b p s c k)
  | RAlt a b =>
      match run a pos rest caps k with
      | Some m => Some m
      | None => run b pos rest caps k
      end
  | RGroup n a => run a pos rest caps (fun p s c => k p s ((n, (pos, p)) :: c))
  | RStar greedy a =>
      (fix loop (fuel pos : nat) (rest : string) (caps : Caps) {struct fuel}
         : option (nat * Caps) :=
         match fuel with
         | O => k pos rest caps
         | S fuel' =>
             let again (_ : unit) :=
               run a pos rest caps
                   (fun p s c => if pos <? p then loop fuel' p s c else None) in
             if greedy then
               match again tt with
               | Some m => Some m
               | None => k pos rest caps
               end
             else
               match k pos rest caps with
               | Some m => Some m
               | None => again tt
               end
         end) (S (String.length rest)) pos rest caps
  end.

Definition accept : Cont := fun p _ c => Some (p, c).

(** The leftmost match at or after [pos]: its start, its end, its captures. *)
Fixpoint find_from (r : Regexp) (pos : nat) (rest : string) {struct rest}
  : option (nat * nat * Caps) :=
  match run r pos rest [] accept with
  | Some (e, c) => Some (pos, e, c)
  | None =>
      match rest with
      | EmptyString => None
      | String _ rest' => find_from r (S pos) rest'
      end
  end.

Fixpoint groups (r : Regexp) : nat :=
  match r with
  | RCat a b | RAlt a b => groups a + groups b
  | RStar _ a => groups a
  | RGroup _ a => S (groups a)
  | _ => 0
  end.

Fixpoint capture (c : Caps) (n : nat) : option (nat * nat) :=
  match c with
  | [] => None
  | (m, se) :: c' => if m =? n then Some se else capture c' n
  end.

(** The text of group [n]; a group that took no part in the match gives the
    empty string. *)
Definition group_text (src : string) (c : Caps) (n : nat) : string :=
  match capture c n with
  | Some (s, e) => Str.slice s e src
  | None => EmptyString
  end.

(** [Regexp.FindStringSubmatch]: the text of the leftmost match and of
    each group, or the nil slice when there is no match. *)
Definition FindStringSubmatch (r : Regexp) (src : string) : list string :=
  match find_from r 0 src with
  | Some (s, e, c) =>
      Str.slice s e src :: map (group_text src c) (seq 1 (groups r))
  | None => []
  end.

(** The loop of [Regexp.replaceAll]: [last] is the end of the most recent
    match and [pos] the offset where the next search starts.  The
    replacement is not inserted for an empty match right after a match, and
    the search always advances by at least one byte. *)
Fixpoint replace_all (fuel : nat) (r : Regexp) (src repl : string)
  (last pos : nat) {struct fuel} : string :=
  match fuel with
  | O => Str.drop last src
  | S fuel' =>
      if String.length src <? pos then Str.drop last src
      else
        match find_from r pos (Str.drop pos src) with
        | None => Str.drop last src
        | Some (a0, a1, _) =>
            let ins :=
              if (last <? a1) || (a0 =? 0) then repl else EmptyString in
            let pos' := if a1 <? pos + 1 then pos + 1 else a1 in
            (Str.slice last a0 src ++ ins
             ++ replace_all fuel' r src repl a1 pos')%string
        end
  end.

(** [Regexp.ReplaceAllString] for a replacement that holds no [$]: the
    replacement is then inserted as it is.  Every rule of the default
    configuration, and [extractTitle], replace by such a text. *)
Definition ReplaceAllString (r : Regexp) (src repl : string) : string :=
  replace_all (String.length src + 2) r src repl 0 0.

End Re.

(** ** Data model *)

(** *** Configuration structures *)

Record SonarrConfig : Set := {
  URL : string;
  APIKey : string;
  DownloadsFolder : string;
  QualityProfile : Z;
  LanguageProfile : Z;
  RootFolder : string
}.

Record AnimePattern : Set := {
  Pattern : string;
  TitleGroup : Z;
  SeasonGroup : Z;
  EpisodeGroup : Z
}.

Record ParsingConfig : Set := {
  AnimePatterns : list AnimePattern;
  SeasonPatterns : list string;
  EpisodePatterns : list string;
  QualityPatterns : list string;
  GroupPatterns : list string
}.

Record Transform : Set := {
  Search : string;
  Replace : string
}.

Record Config : Set := {
  Sonarr : SonarrConfig;
  Parsing : ParsingConfig;
  Transforms : list Transform
}.

(** The globals [config], [verbose] and [dryRun]. *)
Record Env : Set := {
  config : Config;
  verbose : bool;
  dryRun : bool
}.

(** *** Sonarr API structures *)

Record Image : Set := { CoverType : string; ImageURL : string }.

Record Season : Set := { SeasonNumber : Z; SeasonMonitored : bool }.

Record AddOptions : Set := {
  IgnoreEpisodesWithFiles : bool;
  IgnoreEpisodesWithoutFiles : bool;
  SearchForMissingEpisodes : bool
}.

Module Series.
Record t : Set := {
  ID : Z;
  Title : string;
  SortTitle : string;
  Status : string;
  Overview : string;
  Network : string;
  AirTime : string;
  Images : list Image;
  Seasons : list Season;
  Year : Z;
  Path : string;
  QualityProfileID : Z;
  LanguageProfileID : Z;
  SeasonFolder : bool;
  Monitored : bool;
  UseSceneNumbering : bool;
  Runtime : Z;
  TvdbID : Z;
  TvRageID : Z;
  TvMazeID : Z;
  FirstAired : string;
  SeriesType : string;
  CleanTitle : string;
  ImdbID : string;
  TitleSlug : string;
  RootFolderPath : string;
  Genres : list string;
  Tags : list Z;
  Added : string;
  AddOpts : AddOptions
}.
End Series.

Module SeriesLookup.
Record t : Set := {
  Title : string;
  SortTitle : string;
  Status : string;
  Overview : string;
  Network : string;
  Images : list Image;
  Seasons : list Season;
  Year : Z;
  TvdbID : Z;
  TitleSlug : string;
  Genres : list string;
  FirstAired : string
}.
End SeriesLookup.

Module ParsedAnime.
Record t : Set := {
  OriginalFilename : string;
  FilePath : string;
  Title : string;
  Season : Z;
  Episode : Z;
  Quality : string;
  Group : string;
  Year : Z
}.

Definition set_Title (a : t) (v : string) : t :=
  {| OriginalFilename := OriginalFilename a; FilePath := FilePath a;
     Title := v; Season := Season a; Episode := Episode a;
     Quality := Quality a; Group := Group a; Year := Year a |}.

Definition set_Season (a : t) (v : Z) : t :=
  {| OriginalFilename := OriginalFilename a; FilePath := FilePath a;
     Title := Title a; Season := v; Episode := Episode a;
     Quality := Quality a; Group := Group a; Year := Year a |}.

Definition set_Episode (a : t) (v : Z) : t :=
  {| OriginalFilename := OriginalFilename a; FilePath := FilePath a;
     Title := Title a; Season := Season a; Episode := v;
     Quality := Quality a; Group := Group a; Year := Year a |}.

Definition set_Quality (a : t) (v : string) : t :=
  {| OriginalFilename := OriginalFilename a; FilePath := FilePath a;
     Title := Title a; Season := Season a; Episode := Episode a;
     Quality := v; Group := Group a; Year := Year a |}.

Definition set_Group (a : t) (v : string) : t :=
  {| OriginalFilename := OriginalFilename a; FilePath := FilePath a;
     Title := Title a; Season := Season a; Episode := Episode a;
     Quality := Quality a; Group := v; Year := Year a |}.
End ParsedAnime.

Record Quality : Set := { QualityID : Z; QualityName : string }.

Record Language : Set := { LanguageID : Z; LanguageName : string }.

Module ManualImportFile.
Record t : Set := {
  Path : string;
  SeriesID : Z;
  SeasonNumber : Z;
  Episodes : list Z;
  Quality : Quality;
  Language : Language
}.
End ManualImportFile.

Record ManualImportRequest : Set := { Files : list ManualImportFile.t }.

Module Episode.
Record t : Set := {
  ID : Z;
  SeriesID : Z;
  EpisodeNumber : Z;
  SeasonNumber : Z;
  Title : string;
  AirDate : string;
  Overview : string;
  HasFile : bool;
  Monitored : bool
}.
End Episode.

(** *** Errors, results and log lines *)

(** The errors the program builds, each with the text it is built from. *)
Inductive error : Set :=
| errLib (msg : string)
    (** an error returned by [net/http], [net/url], [encoding/json] or the
        file system *)
| errCouldNotParse
    (** "could not parse title or episode from filename" *)
| errSeriesNotFound
    (** "series not found" *)
| errNoSeriesFound (title : string)
    (** "no series found for: %s" *)
| errAddSeriesStatus (status : Z)
    (** "failed to add series, status: %d" *)
| errEpisodeNotFound (season episode : Z)
    (** "episode S%02dE%02d not found" *)
| errManualImportStatus (status : Z)
    (** "manual import failed, status: %d" *)
| errConfigRequired
    (** "Sonarr URL and API key are required" *)
| errDownloadsNotFound (folder : string)
    (** "downloads folder not found: %s" *)
| errWrap (prefix : string) (inner : error)
    (** [fmt.Errorf(prefix + ": %w", inner)] *).

(** A Go result pair [(value, error)]. *)
Inductive Result (A : Type) : Type :=
| Ok (a : A)
| Err (e : error).
Arguments Ok {A} a.
Arguments Err {A} e.

(** What a call does: it returns, or it panics (no function of the program
    recovers). *)
Inductive Outcome (A : Type) : Type :=
| Returns (a : A)
| Panics.
Arguments Returns {A} a.
Arguments Panics {A}.

Inductive Level : Set := INFO | ERROR | VERBOSE.

(** The messages of the functions modelled here, with their arguments. *)
Inductive Msg : Set :=
| MInvalidRegexPattern (search : string)          (* "Invalid regex pattern: %s" *)
| MTransformApplied (before after : string)       (* "Transform applied: %s -> %s" *)
| MCleanedFilename (cleanName : string)           (* "Cleaned filename: %s" *)
| MInvalidAnimePattern (pattern : string)         (* "Invalid anime pattern: %s" *)
| MPatternMatched (pattern title : string) (season episode : Z)
| MProcessingFile (fileName : string)             (* "Processing file: %s" *)
| MParsed (title : string) (season episode : Z)   (* "Parsed: %s S%02dE%02d" *)
| MDryRun (title : string)                        (* "[DRY RUN] Would process: %s" *)
| MFoundExisting (title : string) (id : Z)
| MSeriesNotFoundSearching (title : string)
| MFoundSeriesOption (title : string) (year : Z)
| MAddedSeries (title : string) (id : Z)
| MImported (title : string) (season episode : Z)
| MFoundVideoFiles (n : Z) (folder : string)      (* "Found %d video files in %s" *)
| MNoVideoFiles                                   (* "No video files to process" *)
| MFailedToProcess (base : string) (e : error)    (* "Failed to process %s: %v" *)
| MProcessingComplete (processed total : Z).
    (* "Processing complete. %d/%d files processed successfully" *)

Definition LogLine : Set := (Level * Msg)%type.

(** *** HTTP requests and responses *)

(** The body of a request: [json.Marshal] of one of two structures (it does
    not fail on them). *)
Inductive Payload : Set :=
| NoBody
| SeriesBody (s : Series.t)
| ImportBody (r : ManualImportRequest).

Record Request : Set := {
  Method : string;
  ReqURL : string;
  ReqBody : Payload
}.

(** ** The library interface *)

Record Runtime : Type := {
  (** [regexp] *)
  Regexp : Type;
  Compile : string -> option Regexp;
  FindStringSubmatch : Regexp -> string -> list string;
  ReplaceAllString : Regexp -> string -> string -> string;
  (** [strings.ToLower], [filepath.Join] of two elements, [filepath.Base] *)
  ToLower : string -> string;
  Join : string -> string -> string;
  Base : string -> string;
  (** [http.NewRequest] fails when the URL does not parse. *)
  url_error : string -> option string;
  (** [httpClient.Do]: the network and the catalog behind it have a state
      [Net]; a call gives a transport error or a response. *)
  Net : Type;
  Body : Type;
  Do : Request -> Net -> Result (Z * Body) * Net;
  (** [json.NewDecoder(resp.Body).Decode] at the four types the program
      decodes *)
  decodeSeriesList : Body -> Result (list Series.t);
  decodeLookupList : Body -> Result (list SeriesLookup.t);
  decodeSeries : Body -> Result Series.t;
  decodeEpisodeList : Body -> Result (list Episode.t);
  (** [os.Stat] followed by [os.IsNotExist], and the files [filepath.WalkDir]
      visits before it stops, with the error that stopped it *)
  NotExist : string -> bool;
  WalkFiles : string -> list string * option error
}.

Record Response (rt : Runtime) : Type := {
  StatusCode : Z;
  RespBody : Body rt
}.
Arguments StatusCode {rt} r.
Arguments RespBody {rt} r.

(** ** Effects *)

(** A pure function that logs: its value and the lines it wrote. *)
Definition Logged (A : Type) : Type := (A * list LogLine)%type.

Module LoggedM.
Definition ret {A} (a : A) : Logged A := (a, []).
Definition bind {A B} (m : Logged A) (f : A -> Logged B) : Logged B :=
  let '(a, l1) := m in
  let '(b, l2) := f a in
  (b, l1 ++ l2)%list.
End LoggedM.
Arguments LoggedM.bind : simpl never.

Declare Scope logged_scope.
Delimit Scope logged_scope with logged.
Notation "x <- m ;; k" := (LoggedM.bind m (fun x => k))
  (at level 61, m at next level, right associativity) : logged_scope.
Notation "m ;; k" := (LoggedM.bind m (fun _ => k))
  (at level 61, right associativity) : logged_scope.

(** What a run of the workflow sees and leaves: the network, the requests
    sent (oldest first) and the log (oldest first). *)
Record World (rt : Runtime) : Type := {
  net : Net rt;
  sent : list Request;
  logs : list LogLine
}.
Arguments net {rt} w.
Arguments sent {rt} w.
Arguments logs {rt} w.

Definition M (rt : Runtime) (A : Type) : Type := World rt -> A * World rt.

Module StateM.
Definition ret {rt A} (a : A) : M rt A := fun w => (a, w).
Definition bind {rt A B} (m : M rt A) (f : A -> M rt B) : M rt B :=
  fun w => let '(a, w') := m w in f a w'.
End StateM.
Arguments StateM.bind : simpl never.

Declare Scope state_scope.
Delimit Scope state_scope with state.
Notation "x <- m ;; k" := (StateM.bind m (fun x => k))
  (at level 61, m at next level, right associativity) : state_scope.
Notation "m ;; k" := (StateM.bind m (fun _ => k))
  (at level 61, right associativity) : state_scope.
(** [x, err := m; if err != nil { return err }] *)
Notation "x <-? m ;; k" :=
  (StateM.bind m (fun r => match r with
                           | Ok x => k
                           | Err e => StateM.ret (Err e)
                           end))
  (at level 61, m at next level, right associativity) : state_scope.

(** ** The program *)

Section Program.

Variable rt : Runtime.

(** *** Logging *)

Definition logInfo (m : Msg) : list LogLine := [(INFO, m)].

Definition logError (m : Msg) : list LogLine := [(ERROR, m)].

Definition logVerbose (env : Env) (m : Msg) : list LogLine :=
  if verbose env then [(VERBOSE, m)] else [].

Definition tell (l : list LogLine) : Logged unit := (tt, l).

(** *** Transform pipeline *)

Local Open Scope logged_scope.

Fixpoint applyTransforms_from (env : Env) (transforms : list Transform)
  (result : string) : Logged string :=
  match transforms with
  | [] => LoggedM.ret result
  | transform :: rest =>
      match Compile rt (Search transform) with
      | None =>
          tell (logError (MInvalidRegexPattern (Search transform))) ;;
          applyTransforms_from env rest result
      | Some regex =>
          let newResult := ReplaceAllString rt regex result (Replace transform) in
          if negb (String.eqb newResult result) then
            tell (logVerbose env (MTransformApplied result newResult)) ;;
            applyTransforms_from env rest newResult
          else applyTransforms_from env rest result
      end
  end.

Definition applyTransforms (env : Env) (input : string) : Logged string :=
  applyTransforms_from env (Transforms (config env)) input.

(** *** Pattern extractor *)

(** [len(matches)] *)
Definition len {A} (l : list A) : Z := Z.of_nat (length l).

(** [matches[i]]: out of range, the index expression panics. *)
Definition index (matches : list string) (i : Z) : Outcome string :=
  if i <? 0 then Panics
  else match nth_error matches (Z.to_nat i) with
       | Some s => Returns s
       | None => Panics
       end.

Definition extractTitle_patterns : list string :=
  [ "\s*\[\d+\].*$";
    "\s*[Ee]p?\s*\d+.*$";
    "\s*[Ee]pisode\s*\d+.*$";
    "\s*S\d+E\d+.*$" ].

Definition extractTitle (filename : string) : string :=
  Go.TrimSpace
    (fold_left
       (fun title pattern =>
          match Compile rt pattern with
          | None => title
          | Some regex => ReplaceAllString rt regex title EmptyString
          end)
       extractTitle_patterns filename).

Fixpoint extractEpisode_from (patterns : list string) (filename : string) : Z :=
  match patterns with
  | [] => 0
  | pattern :: rest =>
      match Compile rt pattern with
      | None => extractEpisode_from rest filename
      | Some regex =>
          let matches := FindStringSubmatch rt regex filename in
          if len matches >=? 2 then
            match nth_error matches 1 with
            | Some m =>
                match Go.Atoi m with
                | Some episode => episode
                | None => extractEpisode_from rest filename
                end
            | None => extractEpisode_from rest filename
            end
          else extractEpisode_from rest filename
      end
  end.

Definition extractEpisode (env : Env) (filename : string) : Z :=
  extractEpisode_from (EpisodePatterns (Parsing (config env))) filename.

Definition extractQuality (env : Env) (filename : string) : string :=
  match
    find (fun pattern => Str.Contains (ToLower rt filename) (ToLower rt pattern))
         (QualityPatterns (Parsing (config env)))
  with
  | Some pattern => pattern
  | None => "Unknown"
  end.

Fixpoint extractGroup_from (patterns : list string) (filename : string) : string :=
  match patterns with
  | [] => "Unknown"
  | pattern :: rest =>
      match Compile rt pattern with
      | None => extractGroup_from rest filename
      | Some regex =>
          let matches := FindStringSubmatch rt regex filename in
          if len matches >=? 2 then
            match nth_error matches 1 with
            | Some m => m
            | None => extractGroup_from rest filename
            end
          else extractGroup_from rest filename
      end
  end.

Definition extractGroup (env : Env) (filename : string) : string :=
  extractGroup_from (GroupPatterns (Parsing (config env))) filename.

(** The season or the episode a matched pattern gives: the capture of group
    [g] as an integer, when [g > 0], the group exists and its text is an
    integer; [current] otherwise. *)
Definition captured_int (matches : list string) (g current : Z) : Outcome Z :=
  if (g >? 0) && (len matches >? g) then
    match index matches g with
    | Returns m =>
        match Go.Atoi m with
        | Some v => Returns v
        | None => Returns current
        end
    | Panics => Panics
    end
  else Returns current.

(** The body of the loop over [config.Parsing.AnimePatterns] once [pattern]
    has matched: the fields it sets, before the [break]. *)
Definition take_match (env : Env) (pattern : AnimePattern)
  (matches : list string) (anime : ParsedAnime.t)
  : Logged (Outcome ParsedAnime.t) :=
  match index matches (TitleGroup pattern) with
  | Panics => LoggedM.ret Panics
  | Returns title =>
      let anime := ParsedAnime.set_Title anime (Go.TrimSpace title) in
      match captured_int matches (SeasonGroup pattern) (ParsedAnime.Season anime) with
      | Panics => LoggedM.ret Panics
      | Returns season =>
          let anime := ParsedAnime.set_Season anime season in
          match captured_int matches (EpisodeGroup pattern)
                             (ParsedAnime.Episode anime) with
          | Panics => LoggedM.ret Panics
          | Returns episode =>
              let anime := ParsedAnime.set_Episode anime episode in
              tell (logVerbose env
                      (MPatternMatched (Pattern pattern)
                         (ParsedAnime.Title anime) (ParsedAnime.Season anime)
                         (ParsedAnime.Episode anime))) ;;
              LoggedM.ret (Returns anime)
          end
      end
  end.

(** [for _, pattern := range config.Parsing.AnimePatterns] *)
Fixpoint tryAnimePatterns (env : Env) (patterns : list AnimePattern)
  (cleanName : string) (anime : ParsedAnime.t)
  : Logged (Outcome ParsedAnime.t) :=
  match patterns with
  | [] => LoggedM.ret (Returns anime)
  | pattern :: rest =>
      match Compile rt (Pattern pattern) with
      | None =>
          tell (logError (MInvalidAnimePattern (Pattern pattern))) ;;
          tryAnimePatterns env rest cleanName anime
      | Some regex =>
          let matches := FindStringSubmatch rt regex cleanName in
          if len matches >? TitleGroup pattern
          then take_match env pattern matches anime
          else tryAnimePatterns env rest cleanName anime
      end
  end.

(** The fields once the patterns, the fallback and the quality and group
    scans have run: the record the final check looks at. *)
Definition finish (env : Env) (filename cleanName : string)
  (anime : ParsedAnime.t) : ParsedAnime.t :=
  let anime :=
    if Str.is_empty (ParsedAnime.Title anime) then
      ParsedAnime.set_Episode
        (ParsedAnime.set_Title anime (extractTitle cleanName))
        (extractEpisode env cleanName)
    else anime in
  let anime := ParsedAnime.set_Quality anime (extractQuality env filename) in
  ParsedAnime.set_Group anime (extractGroup env filename).

Definition parseAnimeFilename (env : Env) (filename filepath : string)
  : Logged (Outcome (Result ParsedAnime.t)) :=
  let anime :=
    {| ParsedAnime.OriginalFilename := filename;
       ParsedAnime.FilePath := filepath;
       ParsedAnime.Title := EmptyString;
       ParsedAnime.Season := 1;
       ParsedAnime.Episode := 0;
       ParsedAnime.Quality := EmptyString;
       ParsedAnime.Group := EmptyString;
       ParsedAnime.Year := 0 |} in
  let nameWithoutExt := Str.TrimSuffix filename (Go.Ext filename) in
  cleanName <- applyTransforms env nameWithoutExt ;;
  tell (logVerbose env (MCleanedFilename cleanName)) ;;
  r <- tryAnimePatterns env (AnimePatterns (Parsing (config env))) cleanName anime ;;
  match r with
  | Panics => LoggedM.ret Panics
  | Returns anime =>
      let anime := finish env filename cleanName anime in
      if Str.is_empty (ParsedAnime.Title anime) || (ParsedAnime.Episode anime =? 0)
      then LoggedM.ret (Returns (Err errCouldNotParse))
      else LoggedM.ret (Returns (Ok anime))
  end.

(** *** Catalog client *)

Local Close Scope logged_scope.
Local Open Scope state_scope.

Definition say (l : list LogLine) : M rt unit :=
  fun w => (tt, {| net := net w; sent := sent w; logs := (logs w ++ l)%list |}).

(** [http.NewRequest]: the methods of the program are valid, so it fails
    only on a URL that does not parse. *)
Definition NewRequest (method url : string) (body : Payload) : Result Request :=
  match url_error rt url with
  | Some msg => Err (errLib msg)
  | None => Ok {| Method := method; ReqURL := url; ReqBody := body |}
  end.

Definition httpDo (req : Request) : M rt (Result (Response rt)) :=
  fun w =>
    let '(r, n) := Do rt req (net w) in
    (match r with
     | Ok (status, body) => Ok {| StatusCode := status; RespBody := body |}
     | Err e => Err e
     end,
     {| net := n; sent := (sent w ++ [req])%list; logs := logs w |}).

(** [fmt.Sprintf("%s" + path, strings.TrimRight(config.Sonarr.URL, "/"))] *)
Definition api (env : Env) (path : string) : string :=
  (Str.TrimRightSlash (URL (Sonarr (config env))) ++ path)%string.

Definition is_2xx (status : Z) : bool :=
  negb ((status <? 200) || (status >=? 300)).

Definition title_matches (cleanTitle : string) (s : Series.t) : bool :=
  String.eqb (ToLower rt (Series.Title s)) cleanTitle
  || String.eqb (ToLower rt (Series.SortTitle s)) cleanTitle.

Definition findExistingSeries (env : Env) (title : string) : M rt (Result Z) :=
  let url := api env "/api/v3/series" in
  req <-? StateM.ret (NewRequest "GET" url NoBody) ;;
  resp <-? httpDo req ;;
  series <-? StateM.ret (decodeSeriesList rt (RespBody resp)) ;;
  let cleanTitle := ToLower rt (Go.TrimSpace title) in
  match find (title_matches cleanTitle) series with
  | Some s => StateM.ret (Ok (Series.ID s))
  | None => StateM.ret (Err errSeriesNotFound)
  end.

Definition searchSeries (env : Env) (title : string)
  : M rt (Result (list SeriesLookup.t)) :=
  let url := (api env "/api/v3/series/lookup?term=" ++ title)%string in
  req <-? StateM.ret (NewRequest "GET" url NoBody) ;;
  resp <-? httpDo req ;;
  results <-? StateM.ret (decodeLookupList rt (RespBody resp)) ;;
  StateM.ret (Ok results).

(** The series [addSeries] posts for a lookup candidate. *)
Definition new_series (env : Env) (seriesLookup : SeriesLookup.t) : Series.t :=
  {| Series.ID := 0;
     Series.Title := SeriesLookup.Title seriesLookup;
     Series.SortTitle := SeriesLookup.SortTitle seriesLookup;
     Series.Status := SeriesLookup.Status seriesLookup;
     Series.Overview := SeriesLookup.Overview seriesLookup;
     Series.Network := SeriesLookup.Network seriesLookup;
     Series.AirTime := EmptyString;
     Series.Images := SeriesLookup.Images seriesLookup;
     Series.Seasons := SeriesLookup.Seasons seriesLookup;
     Series.Year := SeriesLookup.Year seriesLookup;
     Series.Path :=
       Join rt (RootFolder (Sonarr (config env)))
               (SeriesLookup.TitleSlug seriesLookup);
     Series.QualityProfileID := QualityProfile (Sonarr (config env));
     Series.LanguageProfileID := LanguageProfile (Sonarr (config env));
     Series.SeasonFolder := true;
     Series.Monitored := true;
     Series.UseSceneNumbering := false;
     Series.Runtime := 0;
     Series.TvdbID := SeriesLookup.TvdbID seriesLookup;
     Series.TvRageID := 0;
     Series.TvMazeID := 0;
     Series.FirstAired := EmptyString;
     Series.SeriesType := EmptyString;
     Series.CleanTitle := EmptyString;
     Series.ImdbID := EmptyString;
     Series.TitleSlug := SeriesLookup.TitleSlug seriesLookup;
     Series.RootFolderPath := RootFolder (Sonarr (config env));
     Series.Genres := SeriesLookup.Genres seriesLookup;
     Series.Tags := [];
     Series.Added := EmptyString;
     Series.AddOpts :=
       {| IgnoreEpisodesWithFiles := false;
          IgnoreEpisodesWithoutFiles := false;
          SearchForMissingEpisodes := false |} |}.

Definition addSeries (env : Env) (seriesLookup : SeriesLookup.t)
  (anime : ParsedAnime.t) : M rt (Result Z) :=
  let series := new_series env seriesLookup in
  let url := api env "/api/v3/series" in
  req <-? StateM.ret (NewRequest "POST" url (SeriesBody series)) ;;
  resp <-? httpDo req ;;
  if negb (is_2xx (StatusCode resp)) then
    StateM.ret (Err (errAddSeriesStatus (StatusCode resp)))
  else
    addedSeries <-? StateM.ret (decodeSeries rt (RespBody resp)) ;;
    say (logInfo (MAddedSeries (Series.Title addedSeries) (Series.ID addedSeries))) ;;
    StateM.ret (Ok (Series.ID addedSeries)).

Definition findOrCreateSeries (env : Env) (anime : ParsedAnime.t)
  : M rt (Result Z) :=
  let title := ParsedAnime.Title anime in
  let create : M rt (Result Z) :=
    say (logInfo (MSeriesNotFoundSearching title)) ;;
    found <- searchSeries env title ;;
    match found with
    | Err e => StateM.ret (Err (errWrap "failed to search for series" e))
    | Ok [] => StateM.ret (Err (errNoSeriesFound title))
    | Ok (selectedSeries :: _) =>
        say (logInfo (MFoundSeriesOption (SeriesLookup.Title selectedSeries)
                                         (SeriesLookup.Year selectedSeries))) ;;
        addSeries env selectedSeries anime
    end in
  existing <- findExistingSeries env title ;;
  match existing with
  | Ok seriesID =>
      if seriesID >? 0 then
        say (logInfo (MFoundExisting title seriesID)) ;;
        StateM.ret (Ok seriesID)
      else create
  | Err _ => create
  end.

Definition episode_matches (seasonNumber episodeNumber : Z) (episode : Episode.t)
  : bool :=
  (Episode.SeasonNumber episode =? seasonNumber)
  && (Episode.EpisodeNumber episode =? episodeNumber).

Definition findEpisode (env : Env) (seriesID seasonNumber episodeNumber : Z)
  : M rt (Result Z) :=
  let url := (api env "/api/v3/episode?seriesId=" ++ Str.itoa seriesID)%string in
  req <-? StateM.ret (NewRequest "GET" url NoBody) ;;
  resp <-? httpDo req ;;
  episodes <-? StateM.ret (decodeEpisodeList rt (RespBody resp)) ;;
  match find (episode_matches seasonNumber episodeNumber) episodes with
  | Some episode => StateM.ret (Ok (Episode.ID episode))
  | None => StateM.ret (Err (errEpisodeNotFound seasonNumber episodeNumber))
  end.

Definition manualImport (env : Env) (anime : ParsedAnime.t)
  (seriesID episodeID : Z) : M rt (Result unit) :=
  let importFile :=
    {| ManualImportFile.Path := ParsedAnime.FilePath anime;
       ManualImportFile.SeriesID := seriesID;
       ManualImportFile.SeasonNumber := ParsedAnime.Season anime;
       ManualImportFile.Episodes := [episodeID];
       ManualImportFile.Quality :=
         {| QualityID := 1; QualityName := "HDTV-1080p" |};
       ManualImportFile.Language :=
         {| LanguageID := 1; LanguageName := "English" |} |} in
  let request := {| Files := [importFile] |} in
  let url := api env "/api/v3/manualimport" in
  req <-? StateM.ret (NewRequest "PUT" url (ImportBody request)) ;;
  resp <-? httpDo req ;;
  if negb (is_2xx (StatusCode resp)) then
    StateM.ret (Err (errManualImportStatus (StatusCode resp)))
  else StateM.ret (Ok tt).

(** *** Reconciliation workflow *)

Definition processAnimeFile (env : Env) (filePath : string)
  : M rt (Outcome (Result unit)) :=
  let fileName := Base rt filePath in
  say (logVerbose env (MProcessingFile fileName)) ;;
  let '(parsed, lines) := parseAnimeFilename env fileName filePath in
  say lines ;;
  match parsed with
  | Panics => StateM.ret Panics
  | Returns (Err e) =>
      StateM.ret (Returns (Err (errWrap "failed to parse anime info" e)))
  | Returns (Ok anime) =>
      let title := ParsedAnime.Title anime in
      let season := ParsedAnime.Season anime in
      let episode := ParsedAnime.Episode anime in
      say (logInfo (MParsed title season episode)) ;;
      if dryRun env then
        say (logInfo (MDryRun title)) ;;
        StateM.ret (Returns (Ok tt))
      else
        series <- findOrCreateSeries env anime ;;
        match series with
        | Err e =>
            StateM.ret (Returns (Err (errWrap "failed to find/create series" e)))
        | Ok seriesID =>
            found <- findEpisode env seriesID season episode ;;
            match found with
            | Err e =>
                StateM.ret (Returns (Err (errWrap "failed to find episode" e)))
            | Ok episodeID =>
                imported <- manualImport env anime seriesID episodeID ;;
                match imported with
                | Err e =>
                    StateM.ret (Returns (Err (errWrap "failed to import file" e)))
                | Ok _ =>
                    say (logInfo (MImported title season episode)) ;;
                    StateM.ret (Returns (Ok tt))
                end
            end
        end
  end.

(** *** Batch *)

Definition videoExtensions : list string :=
  [".mp4"; ".mkv"; ".avi"; ".m4v"; ".mov"; ".wmv"; ".flv"; ".webm"; ".ts"; ".m2ts"].

Definition findVideoFiles (rootPath : string) : list string * option error :=
  let '(paths, err) := WalkFiles rt rootPath in
  (filter (fun path =>
             existsb (String.eqb (ToLower rt (Go.Ext path))) videoExtensions)
          paths,
   err).

(** [for _, file := range videoFiles]: the count of the files processed
    without error, starting from [processed]. *)
Fixpoint processAnimeFiles_loop (env : Env) (videoFiles : list string)
  (processed : Z) : M rt (Outcome Z) :=
  match videoFiles with
  | [] => StateM.ret (Returns processed)
  | file :: rest =>
      r <- processAnimeFile env file ;;
      match r with
      | Panics => StateM.ret Panics
      | Returns (Err e) =>
          say (logError (MFailedToProcess (Base rt file) e)) ;;
          processAnimeFiles_loop env rest processed
      | Returns (Ok _) => processAnimeFiles_loop env rest (processed + 1)
      end
  end.

(** "Parse and process each file": the loop and the line that reports. *)
Definition processAnimeFiles_batch (env : Env) (videoFiles : list string)
  : M rt (Outcome (Result unit)) :=
  r <- processAnimeFiles_loop env videoFiles 0 ;;
  match r with
  | Panics => StateM.ret Panics
  | Returns processed =>
      say (logInfo (MProcessingComplete processed (len videoFiles))) ;;
      StateM.ret (Returns (Ok tt))
  end.

Definition processAnimeFiles (env : Env) : M rt (Outcome (Result unit)) :=
  let sonarr := Sonarr (config env) in
  if Str.is_empty (URL sonarr) || Str.is_empty (APIKey sonarr) then
    StateM.ret (Returns (Err errConfigRequired))
  else if NotExist rt (DownloadsFolder sonarr) then
    StateM.ret (Returns (Err (errDownloadsNotFound (DownloadsFolder sonarr))))
  else
    let '(videoFiles, err) := findVideoFiles (DownloadsFolder sonarr) in
    match err with
    | Some e =>
        StateM.ret (Returns (Err (errWrap "failed to scan for video files" e)))
    | None =>
        say (logInfo (MFoundVideoFiles (len videoFiles) (DownloadsFolder sonarr))) ;;
        if len videoFiles =? 0 then
          say (logInfo MNoVideoFiles) ;;
          StateM.ret (Returns (Ok tt))
        else processAnimeFiles_batch env videoFiles
    end.

End Program.

(** ** A concrete library and a reference catalog

    [GoRt] instantiates the interface, to run the program on concrete
    inputs: the engine [Re] for [regexp]; ASCII letters for
    [strings.ToLower]; paths that are already clean for [filepath.Join] and
    [filepath.Base]; and, behind [httpClient.Do], a small catalog that
    answers the five endpoints of the API. *)

Module GoRt.

Definition lower (c : ascii) : ascii :=
  let n := Str.code c in
  if ((65 <=? n) && (n <=? 90))%nat then Str.byte (n + 32) else c.

Fixpoint to_lower (s : string) : string :=
  match s with
  | EmptyString => EmptyString
  | String c s' => String (lower c) (to_lower s')
  end.

Definition join (a b : string) : string :=
  if Str.is_empty a then b
  else if Str.is_empty b then a
  else (Str.TrimRightSlash a ++ "/" ++ b)%string.

Fixpoint last_element (s acc : string) : string :=
  match s with
  | EmptyString => acc
  | String c s' =>
      if Ascii.eqb c "/"%char then last_element s' EmptyString
      else last_element s' (acc ++ String c EmptyString)%string
  end.

Definition base (path : string) : string :=
  if Str.is_empty path then "."
  else
    let p := Str.TrimRightSlash path in
    if Str.is_empty p then "/" else last_element p EmptyString.

Fixpoint has_control_byte (s : string) : bool :=
  match s with
  | EmptyString => false
  | String c s' =>
      let n := Str.code c in
      (n <? 32)%nat || (n =? 127)%nat || has_control_byte s'
  end.

(** [url.Parse] refuses a URL that holds an ASCII control byte. *)
Definition ctl_error (url : string) : option string :=
  if has_control_byte url then Some "net/url: invalid control character in URL"
  else None.

Inductive Json : Set :=
| BSeriesList (l : list Series.t)
| BLookupList (l : list SeriesLookup.t)
| BSeries (s : Series.t)
| BEpisodeList (l : list Episode.t)
| BOther.

(** The catalog: its series, what a title lookup answers, its episodes, the
    ID the next created series gets, and the status it answers to a
    creation and to an import. *)
Record Catalog : Set := {
  series : list Series.t;
  candidates : list SeriesLookup.t;
  episodes : list Episode.t;
  next_id : Z;
  create_status : Z;
  import_status : Z
}.

Definition with_ID (s : Series.t) (id : Z) : Series.t :=
  {| Series.ID := id; Series.Title := Series.Title s;
     Series.SortTitle := Series.SortTitle s; Series.Status := Series.Status s;
     Series.Overview := Series.Overview s; Series.Network := Series.Network s;
     Series.AirTime := Series.AirTime s; Series.Images := Series.Images s;
     Series.Seasons := Series.Seasons s; Series.Year := Series.Year s;
     Series.Path := Series.Path s;
     Series.QualityProfileID := Series.QualityProfileID s;
     Series.LanguageProfileID := Series.LanguageProfileID s;
     Series.SeasonFolder := Series.SeasonFolder s;
     Series.Monitored := Series.Monitored s;
     Series.UseSceneNumbering := Series.UseSceneNumbering s;
     Series.Runtime := Series.Runtime s; Series.TvdbID := Series.TvdbID s;
     Series.TvRageID := Series.TvRageID s; Series.TvMazeID := Series.TvMazeID s;
     Series.FirstAired := Series.FirstAired s;
     Series.SeriesType := Series.SeriesType s;
     Series.CleanTitle := Series.CleanTitle s; Series.ImdbID := Series.ImdbID s;
     Series.TitleSlug := Series.TitleSlug s;
     Series.RootFolderPath := Series.RootFolderPath s;
     Series.Genres := Series.Genres s; Series.Tags := Series.Tags s;
     Series.Added := Series.Added s; Series.AddOpts := Series.AddOpts s |}.

Definition serve (req : Request) (c : Catalog) : Result (Z * Json) * Catalog :=
  let url := ReqURL req in
  if String.eqb (Method req) "GET" then
    if Str.Contains url "/api/v3/series/lookup" then
      (Ok (200, BLookupList (candidates c)), c)
    else if Str.Contains url "/api/v3/series" then
      (Ok (200, BSeriesList (series c)), c)
    else if Str.Contains url "/api/v3/episode" then
      (Ok (200, BEpisodeList (episodes c)), c)
    else (Ok (404, BOther), c)
  else
    match ReqBody req with
    | SeriesBody s =>
        if (200 <=? create_status c) && (create_status c <? 300) then
          let created := with_ID s (next_id c) in
          (Ok (create_status c, BSeries created),
           {| series := (series c ++ [created])%list;
              candidates := candidates c;
              episodes := episodes c;
              next_id := next_id c + 1;
              create_status := create_status c;
              import_status := import_status c |})
        else (Ok (create_status c, BOther), c)
    | ImportBody _ => (Ok (import_status c, BOther), c)
    | NoBody => (Ok (404, BOther), c)
    end.

Definition cannot_unmarshal {A} : Result A := Err (errLib "json: cannot unmarshal").

Definition rt : Runtime :=
  {| Regexp := Re.Regexp;
     Compile := Re.Compile;
     FindStringSubmatch := Re.FindStringSubmatch;
     ReplaceAllString := Re.ReplaceAllString;
     ToLower := to_lower;
     Join := join;
     Base := base;
     url_error := ctl_error;
     Net := Catalog;
     Body := Json;
     Do := serve;
     decodeSeriesList := fun b =>
       match b with BSeriesList l => Ok l | _ => cannot_unmarshal end;
     decodeLookupList := fun b =>
       match b with BLookupList l => Ok l | _ => cannot_unmarshal end;
     decodeSeries := fun b =>
       match b with BSeries s => Ok s | _ => cannot_unmarshal end;
     decodeEpisodeList := fun b =>
       match b with BEpisodeList l => Ok l | _ => cannot_unmarshal end;
     NotExist := fun _ => false;
     WalkFiles := fun _ => ([], None) |}.

(** The configuration [createDefaultConfig] writes. *)
Definition defaultConfig : Config :=
  {| Sonarr :=
       {| URL := "${SONARR_URL:-http://sonarr:8989}";
          APIKey := "${SONARR_API_KEY}";
          DownloadsFolder := "/downloads";
          QualityProfile := 1;
          LanguageProfile := 1;
          RootFolder := "/tv" |};
     Parsing :=
       {| AnimePatterns :=
            [ {| Pattern := "^(.+?)[\s_]+(\d+)(?:nd|rd|th)?[\s_]+Season[\s_]*\[(\d+)\]";
                 TitleGroup := 1; SeasonGroup := 2; EpisodeGroup := 3 |};
              {| Pattern := "^(.+?)[\s_]+Season[\s_]+(\d+)[\s_]*\[(\d+)\]";
                 TitleGroup := 1; SeasonGroup := 2; EpisodeGroup := 3 |};
              {| Pattern := "^(.+?)[\s_]*\[(\d+)\]";
                 TitleGroup := 1; SeasonGroup := 0; EpisodeGroup := 2 |};
              {| Pattern := "^(.+?)[\s_]+S(\d+)E(\d+)";
                 TitleGroup := 1; SeasonGroup := 2; EpisodeGroup := 3 |} ];
          SeasonPatterns :=
            [ "(\d+)(?:nd|rd|th)?\s+Season"; "Season\s+(\d+)"; "S(\d+)" ];
          EpisodePatterns :=
            [ "\[(\d+)\]"; "E(\d+)"; "Episode\s+(\d+)"; "Ep\s*(\d+)" ];
          QualityPatterns :=
            [ "1080p"; "720p"; "480p"; "WEBRip"; "BluRay"; "DVDRip" ];
          GroupPatterns := [ "\[([^\]]+)\]$"; "\(([^)]+)\)$" ] |};
     Transforms :=
       [ {| Search := "_"; Replace := " " |};
         {| Search := "\."; Replace := " " |};
         {| Search := "\s+"; Replace := " " |};
         {| Search := "^\s+|\s+$"; Replace := EmptyString |} ] |}.

Definition defaultEnv : Env :=
  {| config := defaultConfig; verbose := false; dryRun := false |}.


Definition with_url (c : Config) (url : string) : Config :=
  {| Sonarr :=
       {| URL := url;
          APIKey := APIKey (Sonarr c);
          DownloadsFolder := DownloadsFolder (Sonarr c);
          QualityProfile := QualityProfile (Sonarr c);
          LanguageProfile := LanguageProfile (Sonarr c);
          RootFolder := RootFolder (Sonarr c) |};
     Parsing := Parsing c;
     Transforms := Transforms c |}.

(** The default configuration once the URL of the catalog is filled in. *)
Definition liveConfig : Config := with_url defaultConfig "http://sonarr:8989/".

Definition liveEnv : Env :=
  {| config := liveConfig; verbose := false; dryRun := false |}.

Definition dryEnv : Env :=
  {| config := liveConfig; verbose := false; dryRun := true |}.




Definition series_titled (id : Z) (title : string) : Series.t :=
  {| Series.ID := id; Series.Title := title; Series.SortTitle := to_lower title;
     Series.Status := "continuing"; Series.Overview := EmptyString;
     Series.Network := EmptyString; Series.AirTime := EmptyString;
     Series.Images := []; Series.Seasons := []; Series.Year := 2020;
     Series.Path := join "/tv" (to_lower title);
     Series.QualityProfileID := 1; Series.LanguageProfileID := 1;
     Series.SeasonFolder := true; Series.Monitored := true;
     Series.UseSceneNumbering := false; Series.Runtime := 24;
     Series.TvdbID := 0; Series.TvRageID := 0; Series.TvMazeID := 0;
     Series.FirstAired := EmptyString; Series.SeriesType := "anime";
     Series.CleanTitle := EmptyString; Series.ImdbID := EmptyString;
     Series.TitleSlug := to_lower title; Series.RootFolderPath := "/tv";
     Series.Genres := []; Series.Tags := []; Series.Added := EmptyString;
     Series.AddOpts :=
       {| IgnoreEpisodesWithFiles := false;
          IgnoreEpisodesWithoutFiles := false;
          SearchForMissingEpisodes := false |} |}.

Definition candidate (title slug : string) (year tvdb : Z) : SeriesLookup.t :=
  {| SeriesLookup.Title := title; SeriesLookup.SortTitle := to_lower title;
     SeriesLookup.Status := "continuing"; SeriesLookup.Overview := EmptyString;
     SeriesLookup.Network := EmptyString; SeriesLookup.Images := [];
     SeriesLookup.Seasons := [ {| SeasonNumber := 1; SeasonMonitored := true |} ];
     SeriesLookup.Year := year; SeriesLookup.TvdbID := tvdb;
     SeriesLookup.TitleSlug := slug; SeriesLookup.Genres := ["Anime"];
     SeriesLookup.FirstAired := EmptyString |}.

Definition episode (id seriesID season number : Z) : Episode.t :=
  {| Episode.ID := id; Episode.SeriesID := seriesID;
     Episode.EpisodeNumber := number; Episode.SeasonNumber := season;
     Episode.Title := EmptyString; Episode.AirDate := EmptyString;
     Episode.Overview := EmptyString; Episode.HasFile := false;
     Episode.Monitored := true |}.

Definition parsed (title : string) (season number : Z) : ParsedAnime.t :=
  {| ParsedAnime.OriginalFilename := (title ++ ".mkv")%string;
     ParsedAnime.FilePath := ("/downloads/" ++ title ++ ".mkv")%string;
     ParsedAnime.Title := title; ParsedAnime.Season := season;
     ParsedAnime.Episode := number; ParsedAnime.Quality := "Unknown";
     ParsedAnime.Group := "Unknown"; ParsedAnime.Year := 0 |}.

Definition two_candidates : list SeriesLookup.t :=
  [ candidate "Show Name" "show-name" 2020 101;
    candidate "Show Name (2005)" "show-name-2005" 2005 102 ].

Definition some_episodes : list Episode.t :=
  [ episode 11 7 1 1; episode 12 7 1 2; episode 13 7 1 12; episode 14 7 1 12;
    episode 15 7 2 12 ].

(** A catalog with the series [known]; it creates series from ID 7 on. *)
Definition catalog (known : list Series.t) : Catalog :=
  {| series := known;
     candidates := two_candidates;
     episodes := some_episodes;
     next_id := 7;
     create_status := 201;
     import_status := 202 |}.

Definition start (c : Catalog) : World rt := Build_World rt c [] [].

Definition get (url : string) : Request :=
  {| Method := "GET"; ReqURL := url; ReqBody := NoBody |}.



Definition in_downloads (name : string) : string := ("/downloads/" ++ name)%string.

End GoRt.

(** ** The other program of the repository

    The second [main.go] of the repository (the variant without the
    extractor): it applies the transforms to the file name for the log,
    maps the path of the file into the folder Sonarr sees, and asks Sonarr
    to scan the folder of the file.  [filepath.Rel], [filepath.Dir], the
    network and the walk of the folder are parameters of the model; the
    regular expressions, [filepath.Join], [filepath.Base] and [os.Stat]
    are those of [Runtime]. *)

Module Classic.

Record SonarrConfig : Set := {
  URL : string;
  APIKey : string;
  DownloadsFolder : string;
  MappingPath : string
}.

Record RadarrConfig : Set := {
  RadarrURL : string;
  RadarrAPIKey : string;
  RadarrDownloadsFolder : string;
  RadarrMappingPath : string
}.

Record Config : Set := {
  Sonarr : SonarrConfig;
  Radarr : RadarrConfig;
  Transforms : list Transform
}.

Record Env : Set := {
  config : Config;
  verbose : bool;
  dryRun : bool
}.

Inductive error : Set :=
| errLib (msg : string)
    (** an error of [net/http], [net/url], [path/filepath] or the file system *)
| errConfigRequired
    (** "Sonarr URL and API key are required" *)
| errDownloadsNotFound (folder : string)
    (** "downloads folder not found: %s" *)
| errImportStatus (status : Z)
    (** "import request failed with status: %d" *)
| errWrap (prefix : string) (inner : error)
    (** [fmt.Errorf(prefix + ": %w", inner)] *).

Inductive Result (A : Type) : Type :=
| Ok (a : A)
| Err (e : error).
Arguments Ok {A} a.
Arguments Err {A} e.

Inductive Msg : Set :=
| MInvalidRegexPattern (search : string)        (* "Invalid regex pattern: %s" *)
| MTransformApplied (before after : string)     (* "  Transform applied: %s -> %s" *)
| MProcessingFile (fileName : string)           (* "Processing file: %s" *)
| MTransformed (fileName transformed : string)  (* "  Transformed: %s -> %s" *)
| MMappedPath (mappedPath : string)             (* "  Mapped path: %s" *)
| MDryRun (transformed : string)                (* "  [DRY RUN] Would import: %s" *)
| MSending (url : string)                       (* "  Sending import request to: %s" *)
| MTriggered (fileName : string)                (* "  Import triggered: %s" *)
| MFoundVideoFiles (n : Z) (folder : string)    (* "Found %d video files in %s" *)
| MNoVideoFiles                                 (* "No video files to process" *)
| MFailedToProcess (base : string) (e : error)  (* "Failed to process %s: %v" *)
| MProcessingComplete (processed total : Z).
    (* "Processing complete. %d/%d files processed successfully" *)

Definition LogLine : Set := (Level * Msg)%type.

(** The command [importToSonarr] posts: a map with the keys "name" and
    "path". *)
Record Command : Set := {
  name : string;
  path : string
}.

Record Request : Set := {
  Method : string;
  ReqURL : string;
  ReqBody : Command
}.

Section Program.

Variable rt : Runtime.

(** [filepath.Rel] and [filepath.Dir]. *)
Variable Rel : string -> string -> Result string.
Variable Dir : string -> string.

(** [httpClient.Do]: a transport error or the status of the response. *)
Variable Net : Type.
Variable Do : Request -> Net -> Result Z * Net.

(** The files [filepath.WalkDir] visits before it stops, and the error
    that stopped it. *)
Variable Walk : string -> list string * option error.

Record World : Type := {
  net : Net;
  sent : list Request;
  logs : list LogLine
}.

Definition M (A : Type) : Type := World -> A * World.

Definition ret {A} (a : A) : M A := fun w => (a, w).

Definition bind {A B} (m : M A) (f : A -> M B) : M B :=
  fun w => let '(a, w') := m w in f a w'.

Definition say (l : list LogLine) : M unit :=
  fun w => (tt, {| net := net w; sent := sent w; logs := (logs w ++ l)%list |}).

Definition logInfo (m : Msg) : list LogLine := [(INFO, m)].

Definition logError (m : Msg) : list LogLine := [(ERROR, m)].

Definition logVerbose (env : Env) (m : Msg) : list LogLine :=
  if verbose env then [(VERBOSE, m)] else [].

(** [applyTransforms]: the value and the lines it writes. *)
Fixpoint applyTransforms_from (env : Env) (transforms : list Transform)
  (result : string) : string * list LogLine :=
  match transforms with
  | [] => (result, [])
  | transform :: rest =>
      match Compile rt (Search transform) with
      | None =>
          let '(r, l) := applyTransforms_from env rest result in
          (r, (logError (MInvalidRegexPattern (Search transform)) ++ l)%list)
      | Some regex =>
          let newResult := ReplaceAllString rt regex result (Replace transform) in
          if negb (String.eqb newResult result) then
            let '(r, l) := applyTransforms_from env rest newResult in
            (r, (logVerbose env (MTransformApplied result newResult) ++ l)%list)
          else applyTransforms_from env rest result
      end
  end.

Definition applyTransforms (env : Env) (fileName : string)
  : string * list LogLine :=
  applyTransforms_from env (Transforms (config env)) fileName.

Definition convertToMappingPath (env : Env) (localPath : string) : string :=
  match Rel (DownloadsFolder (Sonarr (config env))) localPath with
  | Err _ => localPath
  | Ok rel => Join rt (MappingPath (Sonarr (config env))) rel
  end.

Definition command_url (env : Env) : string :=
  (Str.TrimRightSlash (URL (Sonarr (config env))) ++ "/api/v3/command")%string.

Definition scan_command (filePath : string) : Command :=
  {| name := "DownloadedEpisodesScan"; path := Dir filePath |}.

Definition importToSonarr (env : Env) (filePath fileName : string)
  : M (Result unit) :=
  let url := command_url env in
  let command := scan_command filePath in
  match url_error rt url with
  | Some msg => ret (Err (errWrap "failed to create request" (errLib msg)))
  | None =>
      let req := {| Method := "POST"; ReqURL := url; ReqBody := command |} in
      bind (say (logVerbose env (MSending url))) (fun _ =>
      fun w =>
        let '(answer, n) := Do req (net w) in
        let w' := {| net := n; sent := (sent w ++ [req])%list; logs := logs w |} in
        match answer with
        | Err e => (Err (errWrap "failed to send import request" e), w')
        | Ok status =>
            if (status <? 200) || (status >=? 300) then
              (Err (errImportStatus status), w')
            else
              bind (say (logInfo (MTriggered fileName)))
                   (fun _ => ret (Ok tt)) w'
        end)
  end.

Definition processVideoFile (env : Env) (filePath : string) : M (Result unit) :=
  let fileName := Base rt filePath in
  bind (say (logVerbose env (MProcessingFile fileName))) (fun _ =>
  let '(transformedName, lines) := applyTransforms env fileName in
  bind (say lines) (fun _ =>
  bind (say (if negb (String.eqb transformedName fileName)
             then logVerbose env (MTransformed fileName transformedName)
             else [])) (fun _ =>
  let mappedPath := convertToMappingPath env filePath in
  bind (say (logVerbose env (MMappedPath mappedPath))) (fun _ =>
  if dryRun env then
    bind (say (logInfo (MDryRun transformedName))) (fun _ => ret (Ok tt))
  else importToSonarr env mappedPath transformedName)))).

Definition videoExtensions : list string :=
  [".mp4"; ".mkv"; ".avi"; ".m4v"; ".mov"; ".wmv"; ".flv"; ".webm"; ".ts"; ".m2ts"].

Definition findVideoFiles (rootPath : string) : list string * option error :=
  let '(paths, err) := Walk rootPath in
  (filter (fun path =>
             existsb (String.eqb (ToLower rt (Go.Ext path))) videoExtensions)
          paths,
   err).

(** [for _, file := range videoFiles] *)
Fixpoint scan_loop (env : Env) (videoFiles : list string) (processed : Z)
  : M Z :=
  match videoFiles with
  | [] => ret processed
  | file :: rest =>
      bind (processVideoFile env file) (fun r =>
      match r with
      | Err e =>
          bind (say (logError (MFailedToProcess (Base rt file) e)))
               (fun _ => scan_loop env rest processed)
      | Ok _ => scan_loop env rest (processed + 1)
      end)
  end.

Definition scanAndImport (env : Env) : M (Result unit) :=
  let sonarr := Sonarr (config env) in
  if Str.is_empty (URL sonarr) || Str.is_empty (APIKey sonarr) then
    ret (Err errConfigRequired)
  else if NotExist rt (DownloadsFolder sonarr) then
    ret (Err (errDownloadsNotFound (DownloadsFolder sonarr)))
  else
    let '(videoFiles, err) := findVideoFiles (DownloadsFolder sonarr) in
    match err with
    | Some e => ret (Err (errWrap "failed to scan for video files" e))
    | None =>
        bind (say (logInfo (MFoundVideoFiles (len videoFiles)
                                             (DownloadsFolder sonarr)))) (fun _ =>
        if len videoFiles =? 0 then
          bind (say (logInfo MNoVideoFiles)) (fun _ => ret (Ok tt))
        else
          bind (scan_loop env videoFiles 0) (fun processed =>
          bind (say (logInfo (MProcessingComplete processed (len videoFiles))))
               (fun _ => ret (Ok tt))))
    end.

(** *** Vocabulary *)

Definition add_log (w : World) (l : list LogLine) : World :=
  {| net := net w; sent := sent w; logs := (logs w ++ l)%list |}.

(** The request of [importToSonarr] for the file at [filePath]. *)
Definition scan_request (env : Env) (filePath : string) : Request :=
  {| Method := "POST";
     ReqURL := command_url env;
     ReqBody := scan_command (convertToMappingPath env filePath) |}.

(** Two environments that differ only in their transforms. *)
Definition same_but_transforms (env env' : Env) : Prop :=
  Sonarr (config env) = Sonarr (config env')
  /\ verbose env = verbose env'
  /\ dryRun env = dryRun env'.

Definition succeeded {A} (r : Result A) : bool :=
  match r with Ok _ => true | Err _ => false end.

(** A run of the loop, file after file, as [batch_run] above. *)
Inductive loop_run (env : Env)
  : list string -> World -> list (Result unit) -> World -> Prop :=
| loop_done (w : World) : loop_run env [] w [] w
| loop_ok (file : string) (rest : list string) (w w1 w' : World)
    (rs : list (Result unit)) :
    processVideoFile env file w = (Ok tt, w1) ->
    loop_run env rest w1 rs w' ->
    loop_run env (file :: rest) w (Ok tt :: rs) w'
| loop_failed (file : string) (rest : list string) (e : error)
    (w w1 w' : World) (rs : list (Result unit)) :
    processVideoFile env file w = (Err e, w1) ->
    loop_run env rest
      (add_log w1 [(ERROR, MFailedToProcess (Base rt file) e)]) rs w' ->
    loop_run env (file :: rest) w (Err e :: rs) w'.

End Program.

Arguments net {Net} w.
Arguments sent {Net} w.
Arguments logs {Net} w.
Arguments add_log {Net} w l.
Arguments say {Net} l w.

(** What [importToSonarr] returns, by the answer to its request. *)
Definition triggered (answer : Result Z) : Result unit :=
  match answer with
  | Err e => Err (errWrap "failed to send import request" e)
  | Ok status =>
      if (200 <=? status) && (status <? 300) then Ok tt
      else Err (errImportStatus status)
  end.

(** *** Parameters to run the program on concrete paths *)

(** [filepath.Rel] for a target below the base, both clean. *)
Definition rel_below (base target : string) : Result string :=
  let prefix := (base ++ "/")%string in
  if String.prefix prefix target
  then Ok (Str.drop (String.length prefix) target)
  else Err (errLib "Rel: can't make the target relative to the base").

Fixpoint dir_rev (r : string) : string :=
  match r with
  | EmptyString => EmptyString
  | String c r' => if Ascii.eqb c "/"%char then r' else dir_rev r'
  end.

(** [filepath.Dir] for a clean path with a folder part. *)
Definition dir_of (path : string) : string :=
  let d := Str.rev (dir_rev (Str.rev path)) in
  if Str.is_empty d then "." else d.

(** A catalog that answers every request with the status it holds. *)
Definition answer_with (req : Request) (status : Z) : Result Z * Z :=
  (Ok status, status).

Definition no_walk (root : string) : list string * option error := ([], None).

Definition demoEnv (dry : bool) : Env :=
  {| config :=
       {| Sonarr := {| URL := "http://sonarr:8989"; APIKey := "key";
                       DownloadsFolder := "/media"; MappingPath := "/downloads" |};
          Radarr := {| RadarrURL := EmptyString; RadarrAPIKey := EmptyString;
                       RadarrDownloadsFolder := "/media";
                       RadarrMappingPath := "/downloads" |};
          Transforms := [ {| Search := "_"; Replace := " " |} ] |};
     verbose := false;
     dryRun := dry |}.

(** [demoEnv false] without its transforms. *)
Definition plainEnv : Env :=
  {| config :=
       {| Sonarr := Sonarr (config (demoEnv false));
          Radarr := Radarr (config (demoEnv false));
          Transforms := [] |};
     verbose := false;
     dryRun := false |}.

Definition demoStart (status : Z) : World Z :=
  {| net := status; sent := []; logs := [] |}.

End Classic.

(** ** Specification vocabulary

    The notions the statements below are written with. *)

Section Vocabulary.

Variable rt : Runtime.

(** The integer of group [g], or [d]: what the code keeps when the pattern
    has no such group or its text is no integer. *)
Definition group_or (matches : list string) (g d : Z) : Z :=
  if (0 <? g) && (g <? len matches) then
    match nth_error matches (Z.to_nat g) with
    | Some m =>
        match Go.Atoi m with
        | Some v => v
        | None => d
        end
    | None => d
    end
  else d.

(** The record a matched pattern leaves. *)
Definition matched_record (pattern : AnimePattern) (matches : list string)
  (title : string) (anime : ParsedAnime.t) : ParsedAnime.t :=
  ParsedAnime.set_Episode
    (ParsedAnime.set_Season
       (ParsedAnime.set_Title anime (Go.TrimSpace title))
       (group_or matches (SeasonGroup pattern) (ParsedAnime.Season anime)))
    (group_or matches (EpisodeGroup pattern) (ParsedAnime.Episode anime)).


(** The name the patterns are tried on: the file name without its
    extension, after the transforms. *)
Definition cleanName_of (env : Env) (filename : string) : string :=
  fst (applyTransforms rt env (Str.TrimSuffix filename (Go.Ext filename))).

Definition initial (filename filepath : string) : ParsedAnime.t :=
  {| ParsedAnime.OriginalFilename := filename;
     ParsedAnime.FilePath := filepath;
     ParsedAnime.Title := EmptyString;
     ParsedAnime.Season := 1;
     ParsedAnime.Episode := 0;
     ParsedAnime.Quality := EmptyString;
     ParsedAnime.Group := EmptyString;
     ParsedAnime.Year := 0 |}.

(** The derived record: the fields as they stand when the final check of
    [parseAnimeFilename] is reached. *)
Definition derived (env : Env) (filename filepath : string)
  : Outcome ParsedAnime.t :=
  match fst (tryAnimePatterns rt env (AnimePatterns (Parsing (config env)))
               (cleanName_of env filename) (initial filename filepath)) with
  | Returns anime =>
      Returns (finish rt env filename (cleanName_of env filename) anime)
  | Panics => Panics
  end.

Definition check (anime : ParsedAnime.t) : Result ParsedAnime.t :=
  if Str.is_empty (ParsedAnime.Title anime) || (ParsedAnime.Episode anime =? 0)
  then Err errCouldNotParse
  else Ok anime.

(** One rule applied to the result so far: all the matches of its pattern
    replaced, or nothing when the pattern does not compile. *)
Definition apply_rule (result : string) (rule : Transform) : string :=
  match Compile rt (Search rule) with
  | Some regex => ReplaceAllString rt regex result (Replace rule)
  | None => result
  end.

Definition invalid (rule : Transform) : bool :=
  match Compile rt (Search rule) with
  | Some _ => false
  | None => true
  end.

Definition is_error_line (l : LogLine) : bool :=
  match fst l with ERROR => true | _ => false end.

Definition record (env : Env) (filename filepath title : string)
  (season episode : Z) : ParsedAnime.t :=
  {| ParsedAnime.OriginalFilename := filename;
     ParsedAnime.FilePath := filepath;
     ParsedAnime.Title := title;
     ParsedAnime.Season := season;
     ParsedAnime.Episode := episode;
     ParsedAnime.Quality := extractQuality rt env filename;
     ParsedAnime.Group := extractGroup rt env filename;
     ParsedAnime.Year := 0 |}.



(** The creation requests among [requests]: the [POST] of [addSeries] is
    the only [POST] of the program. *)
Definition creations (requests : list Request) : list Request :=
  filter (fun r => String.eqb (Method r) "POST") requests.

(** An episode with the season and episode numbers asked for. *)
Definition same_numbers (season episode : Z) (e : Episode.t) : Prop :=
  Episode.SeasonNumber e = season /\ Episode.EpisodeNumber e = episode.

(** A series whose title or sort title, in lower case, is the parsed title
    trimmed and in lower case: the comparison of [findExistingSeries]. *)
Definition same_title (title : string) (s : Series.t) : Prop :=
  ToLower rt (Series.Title s) = ToLower rt (Go.TrimSpace title)
  \/ ToLower rt (Series.SortTitle s) = ToLower rt (Go.TrimSpace title).

Definition add_log (w : World rt) (l : list LogLine) : World rt :=
  {| net := net w; sent := sent w; logs := (logs w ++ l)%list |}.

(** A run of the batch loop, file after file: [batch_run env files w rs w']
    when processing [files] in order from the world [w], each file from the
    world the one before it left, gives the results [rs], none a panic, and
    leaves [w']; a failure leaves one more error line, with the base name
    of the file. *)
Inductive batch_run (env : Env)
  : list string -> World rt -> list (Result unit) -> World rt -> Prop :=
| batch_done (w : World rt) : batch_run env [] w [] w
| batch_ok (file : string) (rest : list string) (w w1 w' : World rt)
    (rs : list (Result unit)) :
    processAnimeFile rt env file w = (Returns (Ok tt), w1) ->
    batch_run env rest w1 rs w' ->
    batch_run env (file :: rest) w (Ok tt :: rs) w'
| batch_failed (file : string) (rest : list string) (e : error)
    (w w1 w' : World rt) (rs : list (Result unit)) :
    processAnimeFile rt env file w = (Returns (Err e), w1) ->
    batch_run env rest
      (add_log w1 [(ERROR, MFailedToProcess (Base rt file) e)]) rs w' ->
    batch_run env (file :: rest) w (Err e :: rs) w'.

Definition succeeded {A} (r : Result A) : bool :=
  match r with Ok _ => true | Err _ => false end.

(** The number of successes and of failures among results. *)
Definition successes {A} (rs : list (Result A)) : Z :=
  len (filter succeeded rs).

Definition failures {A} (rs : list (Result A)) : Z :=
  len (filter (fun r => negb (succeeded r)) rs).

(** What [addSeries] returns, by the answer to its request. *)
Definition created (answer : Result (Z * Body rt)) : Result Z :=
  match answer with
  | Err e => Err e
  | Ok (status, body) =>
      if (200 <=? status) && (status <? 300) then
        match decodeSeries rt body with
        | Ok added => Ok (Series.ID added)
        | Err e => Err e
        end
      else Err (errAddSeriesStatus status)
  end.

End Vocabulary.

(** ** More vocabulary *)

Section MoreVocabulary.

Variable rt : Runtime.

(** An episode pattern that gives no episode on [name]: it does not
    compile, or its match has no first group, or the text of that group is
    no integer. *)
Definition yields_nothing (name pattern : string) : Prop :=
  match Compile rt pattern with
  | None => True
  | Some regex =>
      match FindStringSubmatch rt regex name with
      | _ :: m :: _ => Go.Atoi m = None
      | _ => True
      end
  end.

(** Two environments with the same settings but for the lists of season,
    quality and group patterns. *)
Definition same_but_labels (env env' : Env) : Prop :=
  Sonarr (config env) = Sonarr (config env')
  /\ Transforms (config env) = Transforms (config env')
  /\ AnimePatterns (Parsing (config env)) = AnimePatterns (Parsing (config env'))
  /\ EpisodePatterns (Parsing (config env))
     = EpisodePatterns (Parsing (config env'))
  /\ verbose env = verbose env'
  /\ dryRun env = dryRun env'.

(** The request of [manualImport]. *)
Definition import_request (env : Env) (anime : ParsedAnime.t)
  (seriesID episodeID : Z) : Request :=
  {| Method := "PUT";
     ReqURL := api env "/api/v3/manualimport";
     ReqBody :=
       ImportBody
         {| Files :=
              [ {| ManualImportFile.Path := ParsedAnime.FilePath anime;
                   ManualImportFile.SeriesID := seriesID;
                   ManualImportFile.SeasonNumber := ParsedAnime.Season anime;
                   ManualImportFile.Episodes := [episodeID];
                   ManualImportFile.Quality :=
                     {| QualityID := 1; QualityName := "HDTV-1080p" |};
                   ManualImportFile.Language :=
                     {| LanguageID := 1; LanguageName := "English" |} |} ] |} |}.

(** What [manualImport] returns, by the answer to its request. *)
Definition imported (answer : Result (Z * Body rt)) : Result unit :=
  match answer with
  | Err e => Err e
  | Ok (status, _) =>
      if (200 <=? status) && (status <? 300) then Ok tt
      else Err (errManualImportStatus status)
  end.

(** The three requests of series resolution. *)
Definition list_request (env : Env) : Request :=
  {| Method := "GET"; ReqURL := api env "/api/v3/series"; ReqBody := NoBody |}.

Definition lookup_request (env : Env) (title : string) : Request :=
  {| Method := "GET";
     ReqURL := (api env "/api/v3/series/lookup?term=" ++ title)%string;
     ReqBody := NoBody |}.

Definition create_request (env : Env) (candidate : SeriesLookup.t) : Request :=
  {| Method := "POST";
     ReqURL := api env "/api/v3/series";
     ReqBody := SeriesBody (new_series rt env candidate) |}.


(** The import requests among [requests]: the [PUT] of [manualImport] is
    the only [PUT] of the program. *)
Definition imports (requests : list Request) : list Request :=
  filter (fun r => String.eqb (Method r) "PUT") requests.

(** The last byte of a string. *)
Fixpoint last_byte (s : string) : option ascii :=
  match s with
  | EmptyString => None
  | String c EmptyString => Some c
  | String _ s' => last_byte s'
  end.

(** [s] is [rest] without some bytes at its start. *)
Definition suffix_of (s rest : string) : Prop :=
  exists skipped, rest = (skipped ++ s)%string.

(** The fields the loop over the patterns does not touch. *)
Definition frame (a : ParsedAnime.t) : string * string * string * string * Z :=
  (ParsedAnime.OriginalFilename a, ParsedAnime.FilePath a,
   ParsedAnime.Quality a, ParsedAnime.Group a, ParsedAnime.Year a).

End MoreVocabulary.

(** The loop of a star in [Re.run], over the search [step] of its body. *)
Definition star_loop
  (step : nat -> string -> Re.Caps -> Re.Cont -> option (nat * Re.Caps))
  (k : Re.Cont) (greedy : bool)
  : nat -> nat -> string -> Re.Caps -> option (nat * Re.Caps) :=
  fix loop (fuel pos : nat) (rest : string) (caps : Re.Caps) {struct fuel} :=
    match fuel with
    | O => k pos rest caps
    | S fuel' =>
        let again (_ : unit) :=
          step pos rest caps
               (fun p s c => if (pos <? p)%nat then loop fuel' p s c else None) in
        if greedy then
          match again tt with
          | Some m => Some m
          | None => k pos rest caps
          end
        else
          match k pos rest caps with
          | Some m => Some m
          | None => again tt
          end
    end.

(** A regular expression that ends with the byte [c] followed by the end
    of the text. *)
Fixpoint closes_with (c : ascii) (r : Re.Regexp) : bool :=
  match r with
  | Re.RCat (Re.RChar (Re.MkClass false [(lo, hi)])) Re.REol =>
      (lo =? Str.code c)%nat && (hi =? Str.code c)%nat
  | Re.RCat _ r' => closes_with c r'
  | _ => false
  end.

(** ** More concrete inputs *)

Module Demo.

(** The reference catalog behind a network on which the request for the
    list of series fails. *)
Definition serve_without_list (req : Request) (c : GoRt.Catalog)
  : Result (Z * GoRt.Json) * GoRt.Catalog :=
  if String.eqb (Method req) "GET"
     && String.eqb (ReqURL req) "http://sonarr:8989/api/v3/series"
  then (Err (errLib "connection reset by peer"), c)
  else GoRt.serve req c.

Definition with_network (serve : Request -> GoRt.Catalog
                                 -> Result (Z * GoRt.Json) * GoRt.Catalog)
  (walked : list string) : Runtime :=
  {| Regexp := Re.Regexp;
     Compile := Re.Compile;
     FindStringSubmatch := Re.FindStringSubmatch;
     ReplaceAllString := Re.ReplaceAllString;
     ToLower := GoRt.to_lower;
     Join := GoRt.join;
     Base := GoRt.base;
     url_error := GoRt.ctl_error;
     Net := GoRt.Catalog;
     Body := GoRt.Json;
     Do := serve;
     decodeSeriesList := decodeSeriesList GoRt.rt;
     decodeLookupList := decodeLookupList GoRt.rt;
     decodeSeries := decodeSeries GoRt.rt;
     decodeEpisodeList := decodeEpisodeList GoRt.rt;
     NotExist := fun _ => false;
     WalkFiles := fun _ => (walked, None) |}.

(** [GoRt.rt] with a failing list request. *)
Definition flaky : Runtime := with_network serve_without_list [].

(** [GoRt.rt] over a folder that holds the files [walked]. *)
Definition with_files (walked : list string) : Runtime :=
  with_network GoRt.serve walked.

Definition three_paths : list string :=
  [ GoRt.in_downloads "Show Name [01].mkv";
    GoRt.in_downloads "notes.txt";
    GoRt.in_downloads "randomfile.MKV" ].

(** The live environment without season, quality and group patterns. *)
Definition unlabelledEnv : Env :=
  {| config :=
       {| Sonarr := Sonarr GoRt.liveConfig;
          Parsing :=
            {| AnimePatterns := AnimePatterns (Parsing GoRt.liveConfig);
               SeasonPatterns := [];
               EpisodePatterns := EpisodePatterns (Parsing GoRt.liveConfig);
               QualityPatterns := [];
               GroupPatterns := [] |};
          Transforms := Transforms GoRt.liveConfig |};
     verbose := false;
     dryRun := false |}.



(** The record of "Show Name [12].mkv" under the default configuration. *)
Definition show12 : ParsedAnime.t :=
  record GoRt.rt GoRt.defaultEnv "Show Name [12].mkv"
         (GoRt.in_downloads "Show Name [12].mkv") "Show Name" 1 12.

Definition world (rt : Runtime) (n : Net rt) : World rt :=
  {| net := n; sent := []; logs := [] |}.

End Demo.

(** ** The library functions on examples *)

Example TrimSpace_ex :
  Go.TrimSpace (String (Str.byte 11) "  Show Title - ") = "Show Title -".
Proof. reflexivity. Qed.

Example Atoi_ex :
  Go.Atoi "07" = Some 7 /\ Go.Atoi "-3" = Some (-3) /\ Go.Atoi "+" = None
  /\ Go.Atoi "12a" = None /\ Go.Atoi "9223372036854775808" = None
  /\ Go.Atoi EmptyString = None.
Proof. repeat split; reflexivity. Qed.

Example Ext_ex :
  Go.Ext "Show Name [12].mkv" = ".mkv" /\ Go.Ext "randomfile" = EmptyString
  /\ Str.TrimSuffix "Show.Name.[12].mkv" (Go.Ext "Show.Name.[12].mkv")
     = "Show.Name.[12]".
Proof. repeat split; reflexivity. Qed.

Example Compile_ex :
  Re.Compile "^(.+?)[\s_]*\[(\d+)\]"
  = Some (Re.RCat Re.RBol
           (Re.RCat (Re.RGroup 1 (Re.RCat Re.any_char (Re.RStar false Re.any_char)))
             (Re.RCat (Re.RStar true (Re.RChar (Re.MkClass false
                          [(9, 10); (12, 13); (32, 32); (95, 95)]%nat)))
               (Re.RCat (Re.lit "[")
                 (Re.RCat (Re.RGroup 2
                             (Re.RCat (Re.RChar (Re.MkClass false Re.perl_d))
                                (Re.RStar true (Re.RChar (Re.MkClass false Re.perl_d)))))
                    (Re.lit "]"))))))
  /\ Re.Compile "(a" = None /\ Re.Compile "a**" = None /\ Re.Compile "[a" = None.
Proof. repeat split; reflexivity. Qed.

(** ** Facts about the extractor *)

Section Extraction.

Variable rt : Runtime.

(** The value of a logging computation does not depend on what it logs. *)
Lemma fst_bind {A B} (m : Logged A) (f : A -> Logged B) :
  fst (LoggedM.bind m f) = fst (f (fst m)).
Proof.
  unfold LoggedM.bind. destruct m as [a l]. simpl. destruct (f a). reflexivity.
Qed.

Lemma is_empty_true (s : string) : Str.is_empty s = true <-> s = EmptyString.
Proof. destruct s; cbv; split; intro H; congruence. Qed.

Lemma is_empty_false (s : string) : Str.is_empty s = false <-> s <> EmptyString.
Proof. destruct s; cbv; split; intro H; congruence. Qed.

(** [matches[i]] returns when [0 <= i < len(matches)]. *)
Lemma index_in_range (matches : list string) (i : Z) :
  0 <= i -> i < len matches ->
  exists s, index matches i = Returns s
            /\ nth_error matches (Z.to_nat i) = Some s.
Proof.
  intros Hi Hlen. unfold index, len in *.
  destruct (Z.ltb_spec i 0) as [Hneg | _]; [lia |].
  destruct (nth_error matches (Z.to_nat i)) as [s |] eqn:Hnth.
  - exists s. split; reflexivity.
  - apply nth_error_None in Hnth. lia.
Qed.

Lemma captured_int_returns (matches : list string) (g d : Z) :
  captured_int matches g d = Returns (group_or matches g d).
Proof.
  unfold captured_int, group_or.
  rewrite Z.gtb_ltb, (Z.gtb_ltb (len matches) g).
  destruct (Z.ltb_spec 0 g) as [Hg | Hg]; simpl; [| reflexivity].
  destruct (Z.ltb_spec g (len matches)) as [Hl | Hl]; [| reflexivity].
  destruct (index_in_range matches g) as [s [Hs Hn]]; [lia | exact Hl |].
  rewrite Hs, Hn. destruct (Go.Atoi s); reflexivity.
Qed.

Lemma take_match_returns env pattern matches anime :
  0 <= TitleGroup pattern -> TitleGroup pattern < len matches ->
  exists title,
    nth_error matches (Z.to_nat (TitleGroup pattern)) = Some title
    /\ fst (take_match env pattern matches anime)
       = Returns (matched_record pattern matches title anime).
Proof.
  intros H0 Hlen.
  destruct (index_in_range matches (TitleGroup pattern) H0 Hlen) as [t [Hi Hn]].
  exists t. split; [exact Hn |].
  unfold take_match. rewrite Hi.
  rewrite !captured_int_returns. rewrite fst_bind. reflexivity.
Qed.

Lemma take_match_negative env pattern matches anime :
  TitleGroup pattern < 0 ->
  fst (take_match env pattern matches anime) = Panics.
Proof.
  intro Hneg. unfold take_match, index.
  destruct (Z.ltb_spec (TitleGroup pattern) 0); [reflexivity | lia].
Qed.



Lemma tryAnimePatterns_returns env patterns cleanName anime :
  (forall p, In p patterns -> 0 <= TitleGroup p) ->
  exists a, fst (tryAnimePatterns rt env patterns cleanName anime) = Returns a.
Proof.
  induction patterns as [| p rest IH]; intro Hwf; simpl.
  - exists anime. reflexivity.
  - assert (Hrest : forall q, In q rest -> 0 <= TitleGroup q)
      by (intros q Hq; apply Hwf; right; exact Hq).
    destruct (Compile rt (Pattern p)) as [regex |].
    + destruct (Z.gtb_spec (len (FindStringSubmatch rt regex cleanName))
                           (TitleGroup p)) as [Hgt | Hle].
      * destruct (take_match_returns env p
                    (FindStringSubmatch rt regex cleanName) anime)
          as [t [_ Ht]]; [apply Hwf; left; reflexivity | lia |].
        eexists. exact Ht.
      * apply IH, Hrest.
    + rewrite fst_bind. apply IH, Hrest.
Qed.

Lemma parseAnimeFilename_derived env filename filepath :
  fst (parseAnimeFilename rt env filename filepath)
  = match derived rt env filename filepath with
    | Returns anime => Returns (check anime)
    | Panics => Panics
    end.
Proof.
  unfold parseAnimeFilename, derived, cleanName_of, initial, check.
  rewrite !fst_bind.
  destruct (fst (tryAnimePatterns rt env _ _ _)) as [a |]; [| reflexivity].
  destruct (_ || _); reflexivity.
Qed.

(** *** The transform pipeline is a fold *)

Lemma applyTransforms_from_step env rule rest result :
  fst (applyTransforms_from rt env (rule :: rest) result)
  = fst (applyTransforms_from rt env rest (apply_rule rt result rule)).
Proof.
  simpl. unfold apply_rule.
  destruct (Compile rt (Search rule)) as [regex |].
  - destruct (String.eqb_spec (ReplaceAllString rt regex result (Replace rule))
                result) as [Heq | Hne]; simpl.
    + rewrite Heq. reflexivity.
    + rewrite fst_bind. reflexivity.
  - rewrite fst_bind. reflexivity.
Qed.

Lemma applyTransforms_from_fold env rules result :
  fst (applyTransforms_from rt env rules result)
  = fold_left (apply_rule rt) rules result.
Proof.
  revert result. induction rules as [| rule rest IH]; intro result.
  - reflexivity.
  - rewrite applyTransforms_from_step. simpl. apply IH.
Qed.

Lemma snd_bind_tell {A} (l : list LogLine) (m : Logged A) :
  snd (LoggedM.bind (tell l) (fun _ => m)) = (l ++ snd m)%list.
Proof. unfold LoggedM.bind, tell. destruct m. reflexivity. Qed.

Lemma verbose_not_error env m :
  filter is_error_line (logVerbose env m) = [].
Proof. unfold logVerbose. destruct (verbose env); reflexivity. Qed.

Lemma applyTransforms_from_errors env rules result :
  filter is_error_line (snd (applyTransforms_from rt env rules result))
  = map (fun rule => (ERROR, MInvalidRegexPattern (Search rule)))
        (filter (invalid rt) rules).
Proof.
  revert result. induction rules as [| rule rest IH]; intro result.
  - reflexivity.
  - simpl. unfold invalid at 1.
    destruct (Compile rt (Search rule)) as [regex |].
    + destruct (negb _).
      * rewrite snd_bind_tell, filter_app, verbose_not_error. apply IH.
      * apply IH.
    + rewrite snd_bind_tell. simpl. f_equal. apply IH.
Qed.

(** C9. The transform pipeline is the left-to-right fold of [apply_rule]
    over the configured rules.  Hence a rule sees the output of the rules
    before it and nothing of the rules after it: the pipeline over
    [earlier ++ later] is the pipeline over [later] run on the output of
    the pipeline over [earlier].  A rule that compiles replaces all the
    matches of its pattern ([ReplaceAllString]); a rule that does not
    compile leaves the text as it is, one error line is logged for it, and
    the rules after it still apply. *)
Theorem applyTransforms_left_fold :
  forall (env : Env) (input : string),
    fst (applyTransforms rt env input)
    = fold_left (apply_rule rt) (Transforms (config env)) input
    /\ (forall earlier later,
          fst (applyTransforms_from rt env (earlier ++ later) input)
          = fst (applyTransforms_from rt env later
                   (fst (applyTransforms_from rt env earlier input))))
    /\ (forall rule rest regex,
          Compile rt (Search rule) = Some regex ->
          fst (applyTransforms_from rt env (rule :: rest) input)
          = fst (applyTransforms_from rt env rest
                   (ReplaceAllString rt regex input (Replace rule))))
    /\ (forall rule rest,
          Compile rt (Search rule) = None ->
          applyTransforms_from rt env (rule :: rest) input
          = (fst (applyTransforms_from rt env rest input),
             (ERROR, MInvalidRegexPattern (Search rule))
               :: snd (applyTransforms_from rt env rest input)))
    /\ filter is_error_line (snd (applyTransforms rt env input))
       = map (fun rule => (ERROR, MInvalidRegexPattern (Search rule)))
             (filter (invalid rt) (Transforms (config env))).
Proof.
  intros env input. repeat split.
  - apply applyTransforms_from_fold.
  - intros earlier later.
    rewrite !applyTransforms_from_fold. apply fold_left_app.
  - intros rule rest regex Hc.
    rewrite applyTransforms_from_step. unfold apply_rule. rewrite Hc.
    reflexivity.
  - intros rule rest Hc. simpl. rewrite Hc.
    unfold LoggedM.bind, tell.
    destruct (applyTransforms_from rt env rest input). reflexivity.
  - apply applyTransforms_from_errors.
Qed.

(** *** Title and episode decide the result *)


(** *** The first pattern that matches decides *)





(** *** The fallback *)


End Extraction.

(** ** Facts about the catalog client and the workflow *)

Section Workflow.

Variable rt : Runtime.

Lemma find_first {A} (f : A -> bool) (l : list A) (x : A) :
  find f l = Some x <->
  exists pre post,
    l = (pre ++ x :: post)%list /\ Forall (fun y => f y = false) pre
    /\ f x = true.
Proof.
  split.
  - induction l as [| a l IH]; simpl; [discriminate |].
    destruct (f a) eqn:Hfa.
    + intros [= ->]. exists [], l. repeat split; [constructor | exact Hfa].
    + intro H. destruct (IH H) as [pre [post [-> [Hpre Hx]]]].
      exists (a :: pre), post. repeat split; [constructor; assumption | exact Hx].
  - intros [pre [post [-> [Hpre Hx]]]].
    induction Hpre as [| a pre Ha _ IH]; simpl.
    + rewrite Hx. reflexivity.
    + rewrite Ha. exact IH.
Qed.

Lemma find_none_iff {A} (f : A -> bool) (l : list A) :
  find f l = None <-> Forall (fun y => f y = false) l.
Proof.
  induction l as [| a l IH]; simpl.
  - split; [constructor | reflexivity].
  - destruct (f a) eqn:Hfa.
    + split; [discriminate |]. intro H. inversion H; congruence.
    + rewrite IH. split.
      * intro H. constructor; assumption.
      * intro H. inversion H; assumption.
Qed.

Lemma NewRequest_inv method url body req :
  NewRequest rt method url body = Ok req ->
  url_error rt url = None
  /\ req = {| Method := method; ReqURL := url; ReqBody := body |}.
Proof.
  unfold NewRequest. destruct (url_error rt url); [discriminate |].
  intros [= <-]. split; reflexivity.
Qed.

Lemma NewRequest_same_url method url body req method' body' :
  NewRequest rt method url body = Ok req ->
  NewRequest rt method' url body'
  = Ok {| Method := method'; ReqURL := url; ReqBody := body' |}.
Proof.
  intro H. apply NewRequest_inv in H as [Hu _].
  unfold NewRequest. rewrite Hu. reflexivity.
Qed.

Lemma is_2xx_spec (status : Z) :
  is_2xx status = (200 <=? status) && (status <? 300).
Proof.
  unfold is_2xx.
  destruct (Z.ltb_spec status 200), (Z.geb_spec status 300),
           (Z.leb_spec 200 status), (Z.ltb_spec status 300);
    simpl; try reflexivity; lia.
Qed.

Lemma episode_matches_spec season episode e :
  episode_matches season episode e = true <-> same_numbers season episode e.
Proof.
  unfold episode_matches, same_numbers.
  rewrite andb_true_iff, !Z.eqb_eq. reflexivity.
Qed.

Lemma episode_matches_false season episode e :
  episode_matches season episode e = false <-> ~ same_numbers season episode e.
Proof.
  rewrite <- episode_matches_spec.
  destruct (episode_matches season episode e); split; congruence.
Qed.

Lemma title_matches_spec title s :
  title_matches rt (ToLower rt (Go.TrimSpace title)) s = true
  <-> same_title rt title s.
Proof.
  unfold title_matches, same_title.
  rewrite orb_true_iff, !String.eqb_eq. reflexivity.
Qed.

Lemma title_matches_false title s :
  title_matches rt (ToLower rt (Go.TrimSpace title)) s = false
  <-> ~ same_title rt title s.
Proof.
  rewrite <- title_matches_spec.
  destruct (title_matches rt _ s); split; congruence.
Qed.

Lemma Forall_iff {A} (P Q : A -> Prop) (l : list A) :
  (forall x, P x <-> Q x) -> Forall P l <-> Forall Q l.
Proof.
  intro H. split; intro F; induction F; constructor; try apply H; assumption.
Qed.

(** *** The calls, once the catalog has answered *)

Lemma say_run (l : list LogLine) (w : World rt) :
  say rt l w = (tt, add_log rt w l).
Proof. reflexivity. Qed.

Lemma findExistingSeries_fetched env title w req status body n series :
  NewRequest rt "GET" (api env "/api/v3/series") NoBody = Ok req ->
  Do rt req (net w) = (Ok (status, body), n) ->
  decodeSeriesList rt body = Ok series ->
  findExistingSeries rt env title w
  = (match find (title_matches rt (ToLower rt (Go.TrimSpace title))) series with
     | Some s => Ok (Series.ID s)
     | None => Err errSeriesNotFound
     end,
     {| net := n; sent := (sent w ++ [req])%list; logs := logs w |}).
Proof.
  intros Hreq Hdo Hdec.
  unfold findExistingSeries, StateM.bind, StateM.ret, httpDo.
  rewrite Hreq, Hdo. simpl. rewrite Hdec.
  destruct (find _ series); reflexivity.
Qed.

Lemma searchSeries_fetched env title w req status body n candidates :
  NewRequest rt "GET" (api env "/api/v3/series/lookup?term=" ++ title) NoBody
    = Ok req ->
  Do rt req (net w) = (Ok (status, body), n) ->
  decodeLookupList rt body = Ok candidates ->
  searchSeries rt env title w
  = (Ok candidates,
     {| net := n; sent := (sent w ++ [req])%list; logs := logs w |}).
Proof.
  intros Hreq Hdo Hdec.
  unfold searchSeries, StateM.bind, StateM.ret, httpDo.
  rewrite Hreq, Hdo. simpl. rewrite Hdec. reflexivity.
Qed.

Lemma findEpisode_fetched env seriesID season episode w req status body n episodes :
  NewRequest rt "GET"
    (api env "/api/v3/episode?seriesId=" ++ Str.itoa seriesID) NoBody = Ok req ->
  Do rt req (net w) = (Ok (status, body), n) ->
  decodeEpisodeList rt body = Ok episodes ->
  findEpisode rt env seriesID season episode w
  = (match find (episode_matches season episode) episodes with
     | Some e => Ok (Episode.ID e)
     | None => Err (errEpisodeNotFound season episode)
     end,
     {| net := n; sent := (sent w ++ [req])%list; logs := logs w |}).
Proof.
  intros Hreq Hdo Hdec.
  unfold findEpisode, StateM.bind, StateM.ret, httpDo.
  rewrite Hreq, Hdo. simpl. rewrite Hdec.
  destruct (find _ episodes); reflexivity.
Qed.

Lemma addSeries_posts env candidate anime w get :
  NewRequest rt "GET" (api env "/api/v3/series") NoBody = Ok get ->
  let post := {| Method := "POST"; ReqURL := api env "/api/v3/series";
                 ReqBody := SeriesBody (new_series rt env candidate) |} in
  fst (addSeries rt env candidate anime w) = created rt (fst (Do rt post (net w)))
  /\ sent (snd (addSeries rt env candidate anime w)) = (sent w ++ [post])%list.
Proof.
  intros Hget post.
  unfold addSeries, StateM.bind, StateM.ret, httpDo, created.
  rewrite (NewRequest_same_url _ _ _ _ "POST"
             (SeriesBody (new_series rt env candidate)) Hget).
  fold post. destruct (Do rt post (net w)) as [[[status body] | e] n]; simpl.
  - rewrite is_2xx_spec.
    destruct ((200 <=? status) && (status <? 300)); simpl.
    + destruct (decodeSeries rt body); simpl; split; reflexivity.
    + split; reflexivity.
  - split; reflexivity.
Qed.

(** *** Series resolution *)

(** C6, amended.  When the series list of the catalog has a series with the
    parsed title (title or sort title, case folded) and the first such
    series, in list order, has a positive ID, series resolution returns
    that ID after the one request that fetched the list: it sends no
    creation request. *)
Theorem existing_series_adopted :
  forall (env : Env) (anime : ParsedAnime.t) (w : World rt)
         (get : Request) (status : Z) (body : Body rt) (n : Net rt)
         (before after : list Series.t) (s : Series.t),
    NewRequest rt "GET" (api env "/api/v3/series") NoBody = Ok get ->
    Do rt get (net w) = (Ok (status, body), n) ->
    decodeSeriesList rt body = Ok (before ++ s :: after)%list ->
    Forall (fun x => ~ same_title rt (ParsedAnime.Title anime) x) before ->
    same_title rt (ParsedAnime.Title anime) s ->
    0 < Series.ID s ->
    findOrCreateSeries rt env anime w
    = (Ok (Series.ID s),
       {| net := n;
          sent := (sent w ++ [get])%list;
          logs := (logs w ++
                   [(INFO, MFoundExisting (ParsedAnime.Title anime)
                                          (Series.ID s))])%list |})
    /\ creations (sent (snd (findOrCreateSeries rt env anime w)))
       = creations (sent w).
Proof.
  intros env anime w get status body n before after s
         Hget Hdo Hdec Hbefore Hs Hid.
  assert (Hfind : find (title_matches rt
                          (ToLower rt (Go.TrimSpace (ParsedAnime.Title anime))))
                       (before ++ s :: after)%list = Some s).
  { apply find_first. exists before, after. repeat split.
    - eapply Forall_iff; [| exact Hbefore].
      intro x. apply title_matches_false.
    - apply title_matches_spec. exact Hs. }
  assert (Hrun : findOrCreateSeries rt env anime w
                 = (Ok (Series.ID s),
                    {| net := n;
                       sent := (sent w ++ [get])%list;
                       logs := (logs w ++
                                [(INFO, MFoundExisting (ParsedAnime.Title anime)
                                                       (Series.ID s))])%list |})).
  { unfold findOrCreateSeries. unfold StateM.bind at 1.
    rewrite (findExistingSeries_fetched env _ w get status body n _ Hget Hdo Hdec).
    rewrite Hfind.
    destruct (Z.gtb_spec (Series.ID s) 0); [| lia].
    reflexivity. }
  split; [exact Hrun |].
  rewrite Hrun. simpl. unfold creations. rewrite filter_app. simpl.
  apply NewRequest_inv in Hget as [_ ->]. simpl. apply app_nil_r.
Qed.

Lemma findOrCreateSeries_not_found env anime w get lookup status1 status2
  body1 body2 n1 n2 series candidates :
  NewRequest rt "GET" (api env "/api/v3/series") NoBody = Ok get ->
  Do rt get (net w) = (Ok (status1, body1), n1) ->
  decodeSeriesList rt body1 = Ok series ->
  Forall (fun s => ~ same_title rt (ParsedAnime.Title anime) s) series ->
  NewRequest rt "GET"
    (api env "/api/v3/series/lookup?term=" ++ ParsedAnime.Title anime) NoBody
    = Ok lookup ->
  Do rt lookup n1 = (Ok (status2, body2), n2) ->
  decodeLookupList rt body2 = Ok candidates ->
  let searched :=
    {| net := n2;
       sent := (sent w ++ [get; lookup])%list;
       logs := (logs w ++ [(INFO, MSeriesNotFoundSearching
                                    (ParsedAnime.Title anime))])%list |} in
  findOrCreateSeries rt env anime w
  = match candidates with
    | [] => (Err (errNoSeriesFound (ParsedAnime.Title anime)), searched)
    | first :: _ =>
        addSeries rt env first anime
          (add_log rt searched
             [(INFO, MFoundSeriesOption (SeriesLookup.Title first)
                                        (SeriesLookup.Year first))])
    end.
Proof.
  intros Hget Hdo1 Hdec1 Hnone Hlookup Hdo2 Hdec2 searched.
  assert (Hfind : find (title_matches rt
                          (ToLower rt (Go.TrimSpace (ParsedAnime.Title anime))))
                       series = None).
  { apply find_none_iff. eapply Forall_iff; [| exact Hnone].
    intro x. apply title_matches_false. }
  set (title := ParsedAnime.Title anime) in *.
  set (w1 := add_log rt
               {| net := n1; sent := (sent w ++ [get])%list; logs := logs w |}
               (logInfo (MSeriesNotFoundSearching title))).
  pose proof (searchSeries_fetched env title w1 lookup status2 body2 n2
                candidates Hlookup Hdo2 Hdec2) as Hsearch.
  unfold findOrCreateSeries. fold title. unfold StateM.bind.
  rewrite (findExistingSeries_fetched env _ w get status1 body1 n1 _
             Hget Hdo1 Hdec1).
  rewrite Hfind, say_run. cbv beta iota. fold w1. rewrite Hsearch.
  subst searched w1. simpl. rewrite <- app_assoc. simpl.
  destruct candidates as [| first rest]; reflexivity.
Qed.

(** C5.  When the series list of the catalog has no series with the parsed
    title and the lookup by title answers [candidates]: with no candidate,
    series resolution fails with "no series found for" the title and sends
    no creation request; otherwise it sends exactly one creation request,
    for the first candidate, with the path [Join] of the configured root
    folder and the title slug of that candidate, the quality and language
    profiles of the configuration, monitored and season folder set, and it
    returns what [created] tells of the answer: the ID of the series the
    catalog returns on a 2xx status, the error "failed to add series" on
    any other status. *)
Theorem series_created_from_first_candidate :
  forall (env : Env) (anime : ParsedAnime.t) (w : World rt)
         (get lookup : Request) (status1 status2 : Z) (body1 body2 : Body rt)
         (n1 n2 : Net rt) (series : list Series.t)
         (candidates : list SeriesLookup.t),
    NewRequest rt "GET" (api env "/api/v3/series") NoBody = Ok get ->
    Do rt get (net w) = (Ok (status1, body1), n1) ->
    decodeSeriesList rt body1 = Ok series ->
    Forall (fun s => ~ same_title rt (ParsedAnime.Title anime) s) series ->
    NewRequest rt "GET"
      (api env "/api/v3/series/lookup?term=" ++ ParsedAnime.Title anime) NoBody
      = Ok lookup ->
    Do rt lookup n1 = (Ok (status2, body2), n2) ->
    decodeLookupList rt body2 = Ok candidates ->
    let run := findOrCreateSeries rt env anime w in
    match candidates with
    | [] =>
        fst run = Err (errNoSeriesFound (ParsedAnime.Title anime))
        /\ sent (snd run) = (sent w ++ [get; lookup])%list
        /\ creations (sent (snd run)) = creations (sent w)
    | first :: _ =>
        let series := new_series rt env first in
        let post := {| Method := "POST"; ReqURL := api env "/api/v3/series";
                       ReqBody := SeriesBody series |} in
        sent (snd run) = (sent w ++ [get; lookup; post])%list
        /\ creations (sent (snd run)) = (creations (sent w) ++ [post])%list
        /\ Series.Path series
           = Join rt (RootFolder (Sonarr (config env)))
                     (SeriesLookup.TitleSlug first)
        /\ Series.QualityProfileID series = QualityProfile (Sonarr (config env))
        /\ Series.LanguageProfileID series = LanguageProfile (Sonarr (config env))
        /\ Series.Monitored series = true
        /\ Series.SeasonFolder series = true
        /\ fst run = created rt (fst (Do rt post n2))
    end.
Proof.
  intros env anime w get lookup status1 status2 body1 body2 n1 n2 series
         candidates Hget Hdo1 Hdec1 Hnone Hlookup Hdo2 Hdec2 run.
  pose proof (findOrCreateSeries_not_found env anime w get lookup status1
                status2 body1 body2 n1 n2 series candidates
                Hget Hdo1 Hdec1 Hnone Hlookup Hdo2 Hdec2) as Hrun.
  simpl in Hrun. fold run in Hrun.
  pose proof (NewRequest_inv _ _ _ _ Hget) as [_ Eget].
  pose proof (NewRequest_inv _ _ _ _ Hlookup) as [_ Elookup].
  assert (Hc : forall l, creations (l ++ [get; lookup])%list = creations l).
  { intro l. unfold creations. rewrite filter_app, Eget, Elookup. simpl.
    apply app_nil_r. }
  destruct candidates as [| first rest].
  - rewrite Hrun. simpl. repeat split. apply Hc.
  - match type of Hrun with
    | _ = addSeries rt env first anime ?w3 =>
        destruct (addSeries_posts env first anime w3 get Hget) as [Hr Hs]
    end.
    rewrite <- Hrun in Hr, Hs. simpl in Hr, Hs |- *. rewrite Hr, Hs.
    rewrite <- !app_assoc. simpl.
    repeat split.
    change (sent w ++ [get; lookup; ?p])%list
      with (sent w ++ ([get; lookup] ++ [p]))%list.
    rewrite app_assoc. unfold creations at 1. rewrite filter_app.
    fold (creations (sent w ++ [get; lookup])%list). rewrite Hc. reflexivity.
Qed.

(** *** Episode resolution *)

(** C7.  Over the episode list the catalog returned, episode resolution
    returns an ID exactly when it is the ID of the first entry, in list
    order, whose season number and episode number both equal the parsed
    ones; it fails with "episode not found" exactly when no entry has both
    numbers equal, and with no other error. *)
Theorem findEpisode_exact_scan :
  forall (env : Env) (seriesID season episode : Z) (w : World rt)
         (req : Request) (status : Z) (body : Body rt) (n : Net rt)
         (episodes : list Episode.t),
    NewRequest rt "GET"
      (api env "/api/v3/episode?seriesId=" ++ Str.itoa seriesID) NoBody
      = Ok req ->
    Do rt req (net w) = (Ok (status, body), n) ->
    decodeEpisodeList rt body = Ok episodes ->
    let result := fst (findEpisode rt env seriesID season episode w) in
    (forall id,
        result = Ok id <->
        exists before e after,
          episodes = (before ++ e :: after)%list
          /\ Forall (fun x => ~ same_numbers season episode x) before
          /\ same_numbers season episode e
          /\ Episode.ID e = id)
    /\ (result = Err (errEpisodeNotFound season episode) <->
        Forall (fun x => ~ same_numbers season episode x) episodes)
    /\ (forall e, result = Err e -> e = errEpisodeNotFound season episode).
Proof.
  intros env seriesID season episode w req status body n episodes
         Hreq Hdo Hdec result.
  subst result.
  rewrite (findEpisode_fetched env seriesID season episode w req status body n
             episodes Hreq Hdo Hdec).
  simpl.
  destruct (find (episode_matches season episode) episodes) as [e |] eqn:Hfind.
  - apply find_first in Hfind as Hsplit.
    destruct Hsplit as [before [after [Heps [Hbefore He]]]].
    assert (Hbefore' : Forall (fun x => ~ same_numbers season episode x) before).
    { eapply Forall_iff; [| exact Hbefore].
      intro x. symmetry. apply episode_matches_false. }
    split; [| split].
    + intro id. split.
      * intros [= <-]. exists before, e, after.
        repeat split; try assumption; apply episode_matches_spec in He; apply He.
      * intros [before' [e' [after' [Heps' [Hb' [He' Hid]]]]]].
        assert (Hfind' : find (episode_matches season episode) episodes = Some e').
        { apply find_first. exists before', after'. repeat split.
          - exact Heps'.
          - eapply Forall_iff; [| exact Hb'].
            intro x. apply episode_matches_false.
          - apply episode_matches_spec. exact He'. }
        rewrite Hfind in Hfind'. injection Hfind' as ->. rewrite Hid. reflexivity.
    + split; [discriminate |].
      intro Hall. rewrite Heps in Hall. apply Forall_app in Hall as [_ Hall].
      inversion Hall as [| ? ? Hne _]. apply episode_matches_spec in He.
      contradiction.
    + discriminate.
  - apply find_none_iff in Hfind.
    assert (Hall : Forall (fun x => ~ same_numbers season episode x) episodes).
    { eapply Forall_iff; [| exact Hfind].
      intro x. symmetry. apply episode_matches_false. }
    split; [| split].
    + intro id. split; [discriminate |].
      intros [before [e [after [Heps [_ [He _]]]]]].
      rewrite Heps in Hall. apply Forall_app in Hall as [_ Hall].
      inversion Hall. contradiction.
    + split; [intros _; exact Hall | reflexivity].
    + intros e [= <-]. reflexivity.
Qed.

(** *** Dry run *)

(** C10.  In dry-run mode, for a file whose extraction returns a record,
    processing the file returns success after the lines of the parse and
    the two lines "Parsed" and "[DRY RUN] Would process": it sends no
    request, of any method, and leaves the network as it was. *)
Theorem dry_run_sends_nothing :
  forall (env : Env) (filePath : string) (w : World rt) (anime : ParsedAnime.t),
    dryRun env = true ->
    fst (parseAnimeFilename rt env (Base rt filePath) filePath)
      = Returns (Ok anime) ->
    let run := processAnimeFile rt env filePath w in
    fst run = Returns (Ok tt)
    /\ sent (snd run) = sent w
    /\ net (snd run) = net w
    /\ logs (snd run)
       = (logs w
          ++ logVerbose env (MProcessingFile (Base rt filePath))
          ++ snd (parseAnimeFilename rt env (Base rt filePath) filePath)
          ++ [ (INFO, MParsed (ParsedAnime.Title anime)
                              (ParsedAnime.Season anime)
                              (ParsedAnime.Episode anime));
               (INFO, MDryRun (ParsedAnime.Title anime)) ])%list.
Proof.
  intros env filePath w anime Hdry Hparse run. subst run.
  unfold processAnimeFile, StateM.bind.
  destruct (parseAnimeFilename rt env (Base rt filePath) filePath)
    as [parsed lines].
  simpl in Hparse. subst parsed.
  rewrite !say_run. cbv beta iota. rewrite Hdry, !say_run. simpl.
  repeat split. rewrite <- !app_assoc. reflexivity.
Qed.

(** *** The batch loop *)

Lemma parse_returns env filename filepath :
  (forall p, In p (AnimePatterns (Parsing (config env))) -> 0 <= TitleGroup p) ->
  exists r, fst (parseAnimeFilename rt env filename filepath) = Returns r.
Proof.
  intro Hwf. rewrite parseAnimeFilename_derived. unfold derived.
  destruct (tryAnimePatterns_returns rt env _ (cleanName_of rt env filename)
              (initial filename filepath) Hwf) as [a Ha].
  rewrite Ha. eexists. reflexivity.
Qed.

Lemma processAnimeFile_returns env filePath w :
  (forall p, In p (AnimePatterns (Parsing (config env))) -> 0 <= TitleGroup p) ->
  exists r, fst (processAnimeFile rt env filePath w) = Returns r.
Proof.
  intro Hwf.
  destruct (parse_returns env (Base rt filePath) filePath Hwf) as [r Hr].
  unfold processAnimeFile, StateM.bind.
  destruct (parseAnimeFilename rt env (Base rt filePath) filePath)
    as [parsed lines].
  simpl in Hr. subst parsed.
  rewrite !say_run. cbv beta iota.
  destruct r as [anime | e]; [| eexists; reflexivity].
  rewrite say_run. cbv beta iota.
  destruct (dryRun env); [eexists; reflexivity |].
  destruct (findOrCreateSeries rt env anime _) as [[seriesID | e] w1];
    [| eexists; reflexivity].
  destruct (findEpisode rt env seriesID _ _ w1) as [[episodeID | e] w2];
    [| eexists; reflexivity].
  destruct (manualImport rt env anime seriesID episodeID w2) as [[u | e] w3];
    eexists; reflexivity.
Qed.

Lemma batch_run_exists env files :
  (forall p, In p (AnimePatterns (Parsing (config env))) -> 0 <= TitleGroup p) ->
  forall w, exists rs w',
    batch_run rt env files w rs w' /\ length rs = length files.
Proof.
  intro Hwf. induction files as [| file rest IH]; intro w.
  - exists [], w. split; [constructor | reflexivity].
  - destruct (processAnimeFile_returns env file w Hwf) as [r Hr].
    destruct (processAnimeFile rt env file w) as [o w1] eqn:Hrun.
    simpl in Hr. subst o.
    destruct r as [[] | e].
    + destruct (IH w1) as [rs [w' [Hb Hl]]].
      exists (Ok tt :: rs), w'. split.
      * eapply batch_ok; eassumption.
      * simpl. rewrite Hl. reflexivity.
    + destruct (IH (add_log rt w1 [(ERROR, MFailedToProcess (Base rt file) e)]))
        as [rs [w' [Hb Hl]]].
      exists (Err e :: rs), w'. split.
      * eapply batch_failed; eassumption.
      * simpl. rewrite Hl. reflexivity.
Qed.


Lemma successes_cons_ok {A} (a : A) (rs : list (Result A)) :
  successes (Ok a :: rs) = successes rs + 1.
Proof.
  unfold successes, len. cbn [filter succeeded length].
  rewrite Nat2Z.inj_succ. lia.
Qed.

Lemma successes_cons_err {A} (e : error) (rs : list (Result A)) :
  successes (Err e :: rs) = successes rs.
Proof. reflexivity. Qed.

Lemma successes_failures {A} (rs : list (Result A)) :
  successes rs + failures rs = len rs.
Proof.
  unfold successes, failures, len.
  induction rs as [| [a | e] rs IH]; [reflexivity | |];
    cbn [filter succeeded negb length]; rewrite !Nat2Z.inj_succ; lia.
Qed.

Lemma loop_counts env files w rs w' :
  batch_run rt env files w rs w' ->
  forall processed,
    processAnimeFiles_loop rt env files processed w
    = (Returns (processed + successes rs), w').
Proof.
  induction 1 as [w | file rest w w1 w' rs Hrun _ IH
                    | file rest e w w1 w' rs Hrun _ IH]; intro processed.
  - simpl. unfold StateM.ret, successes, len. simpl. rewrite Z.add_0_r.
    reflexivity.
  - simpl. unfold StateM.bind. rewrite Hrun. rewrite IH.
    rewrite successes_cons_ok. f_equal. f_equal. lia.
  - simpl. unfold StateM.bind. rewrite Hrun, say_run. cbv beta iota.
    rewrite IH. rewrite successes_cons_err. reflexivity.
Qed.


End Workflow.

(** ** The extractor on concrete file names *)

Lemma default_title_groups (p : AnimePattern) :
  In p (AnimePatterns (Parsing GoRt.defaultConfig)) -> 0 <= TitleGroup p.
Proof. intros [<- | [<- | [<- | [<- | []]]]]; simpl; lia. Defined.


(** The rule [_ -> " "] and the other default rules run before the
    patterns: the name the patterns see. *)
Example transforms_run_first :
  cleanName_of GoRt.rt GoRt.defaultEnv "My_Show_Season_2_[5].mkv"
  = "My Show Season 2 [5]".
Proof. vm_compute. reflexivity. Qed.

Example no_episode_number :
  fst (parseAnimeFilename GoRt.rt GoRt.defaultEnv "randomfile.mkv"
         (GoRt.in_downloads "randomfile.mkv"))
  = Returns (Err errCouldNotParse).
Proof. vm_compute. reflexivity. Qed.



(** C2 fails as stated: on the end-to-end file name the record is not the
    one the scenario gives. *)
Lemma scenario_not_as_stated :
  ~ (exists a,
       fst (parseAnimeFilename GoRt.rt GoRt.defaultEnv
              "Show Title - 2nd Season [07] [Group].mkv"
              (GoRt.in_downloads "Show Title - 2nd Season [07] [Group].mkv"))
         = Returns (Ok a)
       /\ ParsedAnime.Title a = "Show Title"
       /\ ParsedAnime.Season a = 2
       /\ ParsedAnime.Episode a = 7
       /\ ParsedAnime.Group a = "Group").
Proof.
  vm_compute. intros [a [H [Ht _]]].
  injection H as <-. discriminate Ht.
Qed.

(** C2, amended.  With the default configuration, extraction on
    "Show Title - 2nd Season [07] [Group].mkv" returns a record with the
    title "Show Title -" (the first pattern captures up to the white space
    before the season number, so the dash stays), season 2 and episode 7. *)
Theorem scenario_extracted :
  exists a,
    fst (parseAnimeFilename GoRt.rt GoRt.defaultEnv
           "Show Title - 2nd Season [07] [Group].mkv"
           (GoRt.in_downloads "Show Title - 2nd Season [07] [Group].mkv"))
      = Returns (Ok a)
    /\ ParsedAnime.Title a = "Show Title -"
    /\ ParsedAnime.Season a = 2
    /\ ParsedAnime.Episode a = 7.
Proof.
  eexists. split; [vm_compute; reflexivity |].
  repeat split.
Qed.

(** The group patterns end with [$] and [extractGroup] reads the file name
    with its extension: the group of the scenario is not found there, and
    is found in the name without the extension. *)
Example scenario_group :
  extractGroup GoRt.rt GoRt.defaultEnv "Show Title - 2nd Season [07] [Group].mkv"
  = "Unknown"
  /\ extractGroup GoRt.rt GoRt.defaultEnv "Show Title - 2nd Season [07] [Group]"
     = "Group".
Proof. split; vm_compute; reflexivity. Qed.





(** ** The workflow against the reference catalog *)

(** C6 fails as stated: the catalog has a series with the parsed title,
    whose ID is 0; series resolution does not adopt it: it sends a creation
    request and returns the ID of the series created. *)
Lemma existing_series_with_id_zero_is_created_again :
  let known := [GoRt.series_titled 0 "Show Name"] in
  let run := findOrCreateSeries GoRt.rt GoRt.liveEnv (GoRt.parsed "Show Name" 1 2)
               (GoRt.start (GoRt.catalog known)) in
  Exists (same_title GoRt.rt "Show Name") known
  /\ fst run = Ok 7
  /\ creations (sent (snd run))
     = [ {| Method := "POST";
            ReqURL := "http://sonarr:8989/api/v3/series";
            ReqBody := SeriesBody
                         (new_series GoRt.rt GoRt.liveEnv
                            (GoRt.candidate "Show Name" "show-name" 2020 101)) |} ].
Proof.
  split; [| split].
  - constructor. left. vm_compute. reflexivity.
  - vm_compute. reflexivity.
  - vm_compute. reflexivity.
Qed.

Lemma existing_series_adopted_witness :
  let known := [ GoRt.series_titled 3 "Other"; GoRt.series_titled 5 "SHOW NAME";
                 GoRt.series_titled 6 "Show Name" ] in
  let run := findOrCreateSeries GoRt.rt GoRt.liveEnv (GoRt.parsed "Show Name" 1 2)
               (GoRt.start (GoRt.catalog known)) in
  fst run = Ok 5 /\ creations (sent (snd run)) = [].
Proof.
  intros known run.
  destruct (existing_series_adopted GoRt.rt GoRt.liveEnv
              (GoRt.parsed "Show Name" 1 2) (GoRt.start (GoRt.catalog known))
              (GoRt.get "http://sonarr:8989/api/v3/series")
              200 (GoRt.BSeriesList known) (GoRt.catalog known)
              [GoRt.series_titled 3 "Other"] [GoRt.series_titled 6 "Show Name"]
              (GoRt.series_titled 5 "SHOW NAME"))
    as [Hrun Hnone].
  - reflexivity.
  - reflexivity.
  - reflexivity.
  - constructor; [| constructor].
    vm_compute. intros [H | H]; discriminate H.
  - right. vm_compute. reflexivity.
  - simpl. lia.
  - fold run in Hrun, Hnone. split.
    + rewrite Hrun. reflexivity.
    + rewrite Hnone. reflexivity.
Defined.

Lemma series_created_from_first_candidate_witness :
  let known := [GoRt.series_titled 3 "Other"] in
  let run := findOrCreateSeries GoRt.rt GoRt.liveEnv (GoRt.parsed "Show Name" 1 2)
               (GoRt.start (GoRt.catalog known)) in
  let post := {| Method := "POST";
                 ReqURL := "http://sonarr:8989/api/v3/series";
                 ReqBody := SeriesBody
                              (new_series GoRt.rt GoRt.liveEnv
                                 (GoRt.candidate "Show Name" "show-name" 2020 101)) |} in
  fst run = Ok 7
  /\ creations (sent (snd run)) = [post]
  /\ Series.Path (new_series GoRt.rt GoRt.liveEnv
                    (GoRt.candidate "Show Name" "show-name" 2020 101))
     = "/tv/show-name".
Proof.
  intros known run post.
  pose proof (series_created_from_first_candidate GoRt.rt GoRt.liveEnv
                (GoRt.parsed "Show Name" 1 2) (GoRt.start (GoRt.catalog known))
                (GoRt.get "http://sonarr:8989/api/v3/series")
                (GoRt.get "http://sonarr:8989/api/v3/series/lookup?term=Show Name")
                200 200 (GoRt.BSeriesList known)
                (GoRt.BLookupList GoRt.two_candidates)
                (GoRt.catalog known) (GoRt.catalog known)
                known GoRt.two_candidates) as H.
  destruct H as [_ [Hcreations [Hpath [_ [_ [_ [_ Hresult]]]]]]].
  - reflexivity.
  - reflexivity.
  - reflexivity.
  - constructor; [| constructor].
    vm_compute. intros [H | H]; discriminate H.
  - reflexivity.
  - reflexivity.
  - reflexivity.
  - fold run in Hcreations, Hresult. split; [| split].
    + rewrite Hresult. reflexivity.
    + rewrite Hcreations. reflexivity.
    + reflexivity.
Defined.

Lemma findEpisode_exact_scan_witness :
  fst (findEpisode GoRt.rt GoRt.liveEnv 7 1 12 (GoRt.start (GoRt.catalog [])))
  = Ok 13.
Proof.
  destruct (findEpisode_exact_scan GoRt.rt GoRt.liveEnv 7 1 12
              (GoRt.start (GoRt.catalog []))
              (GoRt.get "http://sonarr:8989/api/v3/episode?seriesId=7")
              200 (GoRt.BEpisodeList GoRt.some_episodes) (GoRt.catalog [])
              GoRt.some_episodes)
    as [Hok _].
  - reflexivity.
  - reflexivity.
  - reflexivity.
  - apply Hok.
    exists [GoRt.episode 11 7 1 1; GoRt.episode 12 7 1 2],
           (GoRt.episode 13 7 1 12),
           [GoRt.episode 14 7 1 12; GoRt.episode 15 7 2 12].
    split; [reflexivity |]. split; [| split; [split; reflexivity | reflexivity]].
    repeat constructor; intros [_ H]; discriminate H.
Defined.

Lemma dry_run_sends_nothing_witness :
  let run := processAnimeFile GoRt.rt GoRt.dryEnv
               (GoRt.in_downloads "Show Name [12].mkv")
               (GoRt.start (GoRt.catalog [])) in
  fst run = Returns (Ok tt) /\ sent (snd run) = []
  /\ net (snd run) = GoRt.catalog [].
Proof.
  intro run.
  destruct (dry_run_sends_nothing GoRt.rt GoRt.dryEnv
              (GoRt.in_downloads "Show Name [12].mkv")
              (GoRt.start (GoRt.catalog []))
              (record GoRt.rt GoRt.dryEnv "Show Name [12].mkv"
                 (GoRt.in_downloads "Show Name [12].mkv") "Show Name" 1 12))
    as [Hok [Hsent [Hnet _]]].
  - reflexivity.
  - vm_compute. reflexivity.
  - fold run in Hok, Hsent, Hnet. repeat split; assumption.
Defined.



(** The batch of three files, the second of which has no episode number:
    two files out of three are reported, after a creation, two imports and
    one error line. *)
Example batch_of_three :
  let run := processAnimeFiles_batch GoRt.rt GoRt.liveEnv
               [ GoRt.in_downloads "Show Name [01].mkv";
                 GoRt.in_downloads "randomfile.mkv";
                 GoRt.in_downloads "Show Name [02].mkv" ]
               (GoRt.start (GoRt.catalog [])) in
  fst run = Returns (Ok tt)
  /\ logs (snd run)
     = [ (INFO, MParsed "Show Name" 1 1);
         (INFO, MSeriesNotFoundSearching "Show Name");
         (INFO, MFoundSeriesOption "Show Name" 2020);
         (INFO, MAddedSeries "Show Name" 7);
         (INFO, MImported "Show Name" 1 1);
         (ERROR, MFailedToProcess "randomfile.mkv"
                   (errWrap "failed to parse anime info" errCouldNotParse));
         (INFO, MParsed "Show Name" 1 2);
         (INFO, MFoundExisting "Show Name" 7);
         (INFO, MImported "Show Name" 1 2);
         (INFO, MProcessingComplete 2 3) ]
  /\ map Method (sent (snd run))
     = ["GET"; "GET"; "POST"; "GET"; "PUT"; "GET"; "GET"; "PUT"].
Proof. repeat split; vm_compute; reflexivity. Qed.

(** ** More on the extractor *)

Section MoreExtraction.

Variable rt : Runtime.

(** *** The fields of a returned record *)

Lemma tryAnimePatterns_frame env patterns cleanName anime a :
  fst (tryAnimePatterns rt env patterns cleanName anime) = Returns a ->
  frame a = frame anime.
Proof.
  induction patterns as [| p rest IH]; simpl.
  - intros [= <-]. reflexivity.
  - destruct (Compile rt (Pattern p)) as [regex |].
    + destruct (len (FindStringSubmatch rt regex cleanName) >? TitleGroup p).
      * unfold take_match.
        destruct (index _ (TitleGroup p)) as [t |]; [| discriminate].
        rewrite !captured_int_returns, fst_bind. simpl.
        intros [= <-]. reflexivity.
      * exact IH.
    + rewrite fst_bind. exact IH.
Qed.


(** X1.  Whatever the configuration, a record that extraction returns
    carries the file name and the path it was given, the year 0, the
    quality and the group read from the raw file name, a title that is not
    empty and an episode that is not 0. *)
Theorem returned_record_fields :
  forall (env : Env) (filename filepath : string) (a : ParsedAnime.t),
    fst (parseAnimeFilename rt env filename filepath) = Returns (Ok a) ->
    ParsedAnime.OriginalFilename a = filename
    /\ ParsedAnime.FilePath a = filepath
    /\ ParsedAnime.Year a = 0
    /\ ParsedAnime.Quality a = extractQuality rt env filename
    /\ ParsedAnime.Group a = extractGroup rt env filename
    /\ ParsedAnime.Title a <> EmptyString
    /\ ParsedAnime.Episode a <> 0.
Proof.
  intros env filename filepath a.
  rewrite parseAnimeFilename_derived. unfold derived.
  destruct (fst (tryAnimePatterns rt env _ _ _)) as [m |] eqn:Hm;
    [| discriminate].
  apply tryAnimePatterns_frame in Hm. unfold frame, initial in Hm.
  simpl in Hm. injection Hm as Hname Hpath _ _ Hyear.
  unfold check.
  destruct (Str.is_empty (ParsedAnime.Title (finish rt env filename _ m)))
    eqn:Ht; [discriminate |].
  destruct (Z.eqb_spec (ParsedAnime.Episode (finish rt env filename
                                               (cleanName_of rt env filename) m))
                       0) as [He | He]; [discriminate |].
  simpl. intros [= <-].
  apply is_empty_false in Ht.
  repeat split; try assumption;
    unfold finish; destruct (Str.is_empty (ParsedAnime.Title m)); assumption.
Qed.

(** *** The episode of the fallback *)

Lemma extractEpisode_from_skips before rest name :
  Forall (yields_nothing rt name) before ->
  extractEpisode_from rt (before ++ rest) name = extractEpisode_from rt rest name.
Proof.
  induction 1 as [| p before Hp _ IH]; [reflexivity |].
  simpl. unfold yields_nothing in Hp.
  destruct (Compile rt p) as [regex |]; [| exact IH].
  destruct (FindStringSubmatch rt regex name) as [| whole [| m more]];
    try exact IH.
  simpl. rewrite Hp.
  destruct (len (whole :: m :: more) >=? 2); exact IH.
Qed.

(** X2.  The fallback reads the episode from the first group of the first
    episode pattern, in configured order, that compiles, matches the name
    with a first group and whose group is an integer: patterns that yield
    nothing are skipped, the patterns after it are not tried, also when the
    integer is 0; when every pattern yields nothing the episode is 0. *)
Theorem extractEpisode_first_integer :
  forall (env : Env) (name : string),
    (forall before pattern after regex whole number more n,
        EpisodePatterns (Parsing (config env))
          = (before ++ pattern :: after)%list ->
        Forall (yields_nothing rt name) before ->
        Compile rt pattern = Some regex ->
        FindStringSubmatch rt regex name = whole :: number :: more ->
        Go.Atoi number = Some n ->
        extractEpisode rt env name = n)
    /\ (Forall (yields_nothing rt name) (EpisodePatterns (Parsing (config env))) ->
        extractEpisode rt env name = 0).
Proof.
  intros env name. split.
  - intros before pattern after regex whole number more n Hcfg Hb Hc Hm Hn.
    unfold extractEpisode. rewrite Hcfg, extractEpisode_from_skips by exact Hb.
    simpl. rewrite Hc, Hm. simpl. rewrite Hn.
    destruct (len (whole :: number :: more) >=? 2) eqn:Hlen; [reflexivity |].
    unfold len in Hlen. simpl length in Hlen.
    rewrite Z.geb_leb in Hlen. apply Z.leb_gt in Hlen. lia.
  - intro Hall. unfold extractEpisode.
    rewrite <- (app_nil_r (EpisodePatterns _)).
    rewrite extractEpisode_from_skips by exact Hall. reflexivity.
Qed.

End MoreExtraction.

(** ** The default group patterns on the raw file name *)

Lemma suffix_of_refl (s : string) : suffix_of s s.
Proof. exists EmptyString. reflexivity. Qed.

Lemma suffix_of_tail (a : ascii) (s rest : string) :
  suffix_of (String a s) rest -> suffix_of s rest.
Proof.
  intros [skipped ->]. exists (skipped ++ String a EmptyString)%string.
  induction skipped as [| c skipped IH]; simpl; [reflexivity |].
  rewrite IH. reflexivity.
Qed.

Lemma suffix_of_trans (s t rest : string) :
  suffix_of s t -> suffix_of t rest -> suffix_of s rest.
Proof.
  intros [u ->] [v ->]. exists (v ++ u)%string.
  induction v as [| c v IH]; simpl; [reflexivity |].
  rewrite IH. reflexivity.
Qed.

Lemma last_byte_suffix (c : ascii) (rest : string) :
  suffix_of (String c EmptyString) rest -> last_byte rest = Some c.
Proof.
  intros [skipped ->].
  induction skipped as [| a skipped IH]; [reflexivity |].
  simpl. destruct (skipped ++ String c EmptyString)%string eqn:E.
  - destruct skipped; discriminate E.
  - exact IH.
Qed.

(** The search fails when its continuation fails wherever it can be
    reached: at every suffix of the text that remains. *)
Lemma run_none (r : Re.Regexp) :
  forall (pos : nat) (rest : string) (caps : Re.Caps) (k : Re.Cont),
    (forall p s c, suffix_of s rest -> k p s c = None) ->
    Re.run r pos rest caps k = None.
Proof.
  induction r as [| cl | | | a IHa b IHb | a IHa b IHb | greedy a IHa | n a IHa];
    intros pos rest caps k Hk; cbn [Re.run].
  - apply Hk, suffix_of_refl.
  - destruct rest as [| x rest']; [reflexivity |].
    destruct (Re.in_class cl x); [| reflexivity].
    apply Hk. eapply suffix_of_tail, suffix_of_refl.
  - destruct (pos =? 0)%nat; [apply Hk, suffix_of_refl | reflexivity].
  - destruct rest; [apply Hk, suffix_of_refl | reflexivity].
  - apply IHa. intros p s c Hs. apply IHb.
    intros p' s' c' Hs'. apply Hk. eapply suffix_of_trans; eassumption.
  - rewrite IHa by exact Hk. apply IHb, Hk.
  - change (star_loop (Re.run a) k greedy (S (String.length rest)) pos rest caps
            = None).
    assert (Hloop : forall fuel p s c,
               suffix_of s rest -> star_loop (Re.run a) k greedy fuel p s c = None).
    { induction fuel as [| fuel IHfuel]; intros p s c Hs.
      - apply Hk, Hs.
      - cbn [star_loop]. cbv zeta.
        rewrite IHa, (Hk p s c Hs); [destruct greedy; reflexivity |].
        intros p' s' c' Hs'.
        destruct (p <? p')%nat; [| reflexivity].
        apply IHfuel. eapply suffix_of_trans; eassumption. }
    apply Hloop, suffix_of_refl.
  - apply IHa. intros p s c Hs. apply Hk, Hs.
Qed.

Lemma find_from_none (r : Re.Regexp) :
  forall (rest : string) (pos : nat),
    (forall p s, suffix_of s rest -> Re.run r p s [] Re.accept = None) ->
    Re.find_from r pos rest = None.
Proof.
  induction rest as [| a rest IH]; intros pos Hnone; simpl.
  - rewrite Hnone by apply suffix_of_refl. reflexivity.
  - rewrite Hnone by apply suffix_of_refl.
    apply IH. intros p s Hs. apply Hnone.
    eapply suffix_of_trans; [exact Hs |].
    eapply suffix_of_tail, suffix_of_refl.
Qed.

(** A pattern that ends with the byte [c] and the end of the text matches
    no text whose last byte is not [c]. *)
Lemma closing_byte_needed (c : ascii) (name : string) (r : Re.Regexp) :
  closes_with c r = true ->
  last_byte name <> Some c ->
  Re.FindStringSubmatch r name = [].
Proof.
  intros Hr Hlast. unfold Re.FindStringSubmatch.
  rewrite find_from_none; [reflexivity |].
  assert (H : forall p s caps,
             suffix_of s name -> Re.run r p s caps Re.accept = None);
    [| intros p s Hs; apply H, Hs].
  induction r as [| | | | a _ b IHb | | |]; try discriminate Hr.
  intros p s caps Hs. cbn [Re.run].
  destruct a as [| [[] [| [lo hi] []]] | | | | | |];
    try (apply run_none; intros p' s' c' Hs'; apply (IHb Hr);
         eapply suffix_of_trans; eassumption).
  destruct b; try (apply run_none; intros p' s' c' Hs'; apply (IHb Hr);
                   eapply suffix_of_trans; eassumption).
  cbn [closes_with] in Hr. apply andb_true_iff in Hr as [Hlo Hhi].
  apply Nat.eqb_eq in Hlo, Hhi. subst lo hi. cbn [Re.run].
  destruct s as [| x s']; [reflexivity |].
  unfold Re.in_class. cbn [Re.negated Re.ranges existsb fst snd xorb].
  destruct ((Str.code c <=? Str.code x)%nat && (Str.code x <=? Str.code c)%nat)
    eqn:Hx; [| reflexivity].
  cbn [orb]. destruct s' as [| y s'']; [| reflexivity].
  exfalso. apply Hlast.
  apply andb_true_iff in Hx as [H1 H2].
  apply Nat.leb_le in H1, H2.
  assert (Hc : x = c).
  { rewrite <- (ascii_nat_embedding x), <- (ascii_nat_embedding c).
    unfold Str.code in *. f_equal. lia. }
  subst x. apply last_byte_suffix. exact Hs.
Qed.

(** The group scan over the two default patterns. *)
Lemma default_group_scan (filename : string) :
  last_byte filename <> Some "]"%char ->
  last_byte filename <> Some ")"%char ->
  extractGroup_from GoRt.rt (GroupPatterns (Parsing GoRt.defaultConfig)) filename
  = "Unknown".
Proof.
  intros Hbracket Hparen.
  change (GroupPatterns (Parsing GoRt.defaultConfig))
    with ["\[([^\]]+)\]$"; "\(([^)]+)\)$"].
  cbn [extractGroup_from].
  change (Compile GoRt.rt) with Re.Compile.
  change (FindStringSubmatch GoRt.rt) with Re.FindStringSubmatch.
  destruct (Re.Compile "\[([^\]]+)\]$") as [r1 |] eqn:E1;
    [| vm_compute in E1; discriminate E1].
  destruct (Re.Compile "\(([^)]+)\)$") as [r2 |] eqn:E2;
    [| vm_compute in E2; discriminate E2].
  vm_compute in E1, E2. injection E1 as <-. injection E2 as <-.
  rewrite (closing_byte_needed "]" filename) by (reflexivity || assumption).
  rewrite (closing_byte_needed ")" filename) by (reflexivity || assumption).
  reflexivity.
Qed.

(** X3.  With the default group patterns, which end with [\]$] and [\)$],
    the group of a file name whose last byte is neither a closing bracket
    nor a closing parenthesis is "Unknown": [extractGroup] reads the file
    name with its extension, so a bracketed group before the extension is
    not found. *)
Theorem default_group_needs_closing_byte :
  forall (env : Env) (filename : string),
    GroupPatterns (Parsing (config env))
      = GroupPatterns (Parsing GoRt.defaultConfig) ->
    last_byte filename <> Some "]"%char ->
    last_byte filename <> Some ")"%char ->
    extractGroup GoRt.rt env filename = "Unknown".
Proof.
  intros env filename Hcfg Hbracket Hparen.
  unfold extractGroup. rewrite Hcfg.
  apply default_group_scan; assumption.
Qed.

(** *** File names with a video extension *)








(** ** More on the loop over the structured patterns *)

Section MorePatterns.

Variable rt : Runtime.





End MorePatterns.

(** ** The title of a record is trimmed *)

Lemma append_assoc (a b c : string) :
  ((a ++ b) ++ c)%string = (a ++ (b ++ c))%string.
Proof. induction a as [| x a IH]; simpl; [| rewrite IH]; reflexivity. Qed.

Lemma length_append (a b : string) :
  String.length (a ++ b) = (String.length a + String.length b)%nat.
Proof. induction a as [| x a IH]; simpl; [| rewrite IH]; reflexivity. Qed.

Lemma rev_acc_app (s acc : string) :
  Str.rev_acc s acc = (Str.rev s ++ acc)%string.
Proof.
  unfold Str.rev. revert acc.
  induction s as [| c s IH]; intro acc; simpl; [reflexivity |].
  rewrite IH, (IH (String c EmptyString)).
  rewrite append_assoc. reflexivity.
Qed.

Lemma append_empty_r (s : string) : (s ++ EmptyString)%string = s.
Proof. induction s as [| c s IH]; simpl; [| rewrite IH]; reflexivity. Qed.

Lemma rev_cons (c : ascii) (s : string) :
  Str.rev (String c s) = (Str.rev s ++ String c EmptyString)%string.
Proof. unfold Str.rev at 1. simpl. apply rev_acc_app. Qed.

Lemma rev_app (a b : string) :
  Str.rev (a ++ b) = (Str.rev b ++ Str.rev a)%string.
Proof.
  induction a as [| c a IH]; simpl.
  - symmetry. apply append_empty_r.
  - rewrite !rev_cons, IH, append_assoc. reflexivity.
Qed.

Lemma rev_involutive (s : string) : Str.rev (Str.rev s) = s.
Proof.
  induction s as [| c s IH]; [reflexivity |].
  rewrite rev_cons, rev_app, IH. reflexivity.
Qed.

Lemma prefix_app (p s : string) :
  String.prefix p s = true <-> exists t, s = (p ++ t)%string.
Proof.
  revert s. induction p as [| c p IH]; intro s; simpl.
  - split; [intros _; exists s; reflexivity | intros _; destruct s; reflexivity].
  - destruct s as [| d s]; simpl;
      [split; [discriminate | intros [t H]; discriminate] |].
    destruct (Ascii.ascii_dec c d) as [-> | Hne].
    + rewrite IH. split; intros [t H]; exists t; congruence.
    + split; [discriminate |]. intros [t H]. congruence.
Qed.

Lemma drop_app (p t : string) : Str.drop (String.length p) (p ++ t) = t.
Proof. induction p as [| c p IH]; [destruct t |]; simpl; auto. Qed.

Lemma leading_none_iff (ps : list string) (s : string) :
  Go.leading ps s = None <-> forall p, In p ps -> String.prefix p s = false.
Proof.
  unfold Go.leading. split.
  - intros H p Hp. exact (find_none _ _ H p Hp).
  - intro H. induction ps as [| q ps IH]; [reflexivity |].
    simpl. rewrite (H q) by (left; reflexivity).
    apply IH. intros p Hp. apply H. right. exact Hp.
Qed.

(** What [trim_left] removes and what it leaves, with fuel enough. *)
Lemma trim_left_spec (ps : list string) :
  (forall p, In p ps -> p <> EmptyString) ->
  forall (fuel : nat) (s : string),
    (String.length s <= fuel)%nat ->
    exists removed,
      s = (removed ++ Go.trim_left fuel ps s)%string
      /\ Go.leading ps (Go.trim_left fuel ps s) = None.
Proof.
  intros Hne. induction fuel as [| fuel IH]; intros s Hlen.
  - destruct s; [| simpl in Hlen; lia].
    exists EmptyString. split; [reflexivity |].
    apply leading_none_iff. intros p Hp.
    destruct p; [destruct (Hne _ Hp eq_refl) | reflexivity].
  - simpl. destruct (Go.leading ps s) as [p |] eqn:Hlead.
    + apply find_some in Hlead as [Hin Hpre].
      apply prefix_app in Hpre as [t ->].
      rewrite drop_app.
      destruct (IH t) as [removed [Ht Hnone]].
      { rewrite length_append in Hlen.
        destruct p; [destruct (Hne _ Hin eq_refl) |]. simpl in Hlen. lia. }
      exists (p ++ removed)%string. split; [| exact Hnone].
      rewrite append_assoc. f_equal. exact Ht.
    + exists EmptyString. split; [reflexivity | exact Hlead].
Qed.

Lemma trim_left_clean (ps : list string) (fuel : nat) (s : string) :
  Go.leading ps s = None -> Go.trim_left fuel ps s = s.
Proof. intro H. destruct fuel; simpl; [| rewrite H]; reflexivity. Qed.

Lemma spaces_not_empty (p : string) : In p Go.spaces -> p <> EmptyString.
Proof.
  assert (H : forallb Str.non_empty Go.spaces = true) by reflexivity.
  rewrite forallb_forall in H. intros Hp ->. discriminate (H _ Hp).
Qed.

Lemma reversed_spaces_not_empty (p : string) :
  In p (map Str.rev Go.spaces) -> p <> EmptyString.
Proof.
  assert (H : forallb Str.non_empty (map Str.rev Go.spaces) = true)
    by reflexivity.
  rewrite forallb_forall in H. intros Hp ->. discriminate (H _ Hp).
Qed.

(** [strings.TrimSpace] leaves nothing to trim. *)
Lemma TrimSpace_idempotent (s : string) :
  Go.TrimSpace (Go.TrimSpace s) = Go.TrimSpace s.
Proof.
  unfold Go.TrimSpace at 2 3.
  destruct (trim_left_spec Go.spaces spaces_not_empty (String.length s) s
              (le_n _)) as [_ [_ Hleft]].
  fold (Go.TrimLeftSpace s) in Hleft.
  set (t := Go.TrimLeftSpace s) in *.
  unfold Go.TrimRightSpace.
  destruct (trim_left_spec (map Str.rev Go.spaces) reversed_spaces_not_empty
              (String.length t) (Str.rev t)) as [removed [Hrev Hright]].
  { rewrite <- (rev_involutive t) at 2.
    clear. generalize (Str.rev t). intro r.
    assert (H : forall x, String.length (Str.rev x) = String.length x).
    { induction x as [| c x IH]; [reflexivity |].
      rewrite rev_cons, length_append, IH. simpl. lia. }
    rewrite H. apply le_n. }
  set (x := Go.trim_left (String.length t) (map Str.rev Go.spaces) (Str.rev t))
    in *.
  assert (Ht : t = (Str.rev x ++ Str.rev removed)%string).
  { rewrite <- (rev_involutive t), Hrev, rev_app. reflexivity. }
  assert (Hclean : Go.leading Go.spaces (Str.rev x) = None).
  { apply leading_none_iff. intros p Hp.
    destruct (String.prefix p (Str.rev x)) eqn:Hpre; [| reflexivity].
    apply prefix_app in Hpre as [v Hv].
    rewrite leading_none_iff in Hleft. rewrite <- (Hleft p Hp).
    symmetry. apply prefix_app. exists (v ++ Str.rev removed)%string.
    rewrite Ht, Hv, append_assoc. reflexivity. }
  unfold Go.TrimSpace, Go.TrimLeftSpace.
  rewrite trim_left_clean by exact Hclean.
  unfold Go.TrimRightSpace. rewrite rev_involutive.
  rewrite trim_left_clean by exact Hright.
  reflexivity.
Qed.

Section Trimmed.

Variable rt : Runtime.

Lemma tryAnimePatterns_title env patterns cleanName anime a :
  fst (tryAnimePatterns rt env patterns cleanName anime) = Returns a ->
  ParsedAnime.Title a = ParsedAnime.Title anime
  \/ exists capture, ParsedAnime.Title a = Go.TrimSpace capture.
Proof.
  induction patterns as [| p rest IH]; simpl.
  - intros [= <-]. left. reflexivity.
  - destruct (Compile rt (Pattern p)) as [regex |].
    + destruct (len (FindStringSubmatch rt regex cleanName) >? TitleGroup p).
      * unfold take_match.
        destruct (index _ (TitleGroup p)) as [t |]; [| discriminate].
        rewrite !captured_int_returns, fst_bind. simpl.
        intros [= <-]. right. exists t. reflexivity.
      * exact IH.
    + rewrite fst_bind. exact IH.
Qed.

(** X7.  The title of a record that extraction returns has no white
    space at its start or at its end: [strings.TrimSpace] leaves it as it
    is, so the [TrimSpace] of [findExistingSeries] changes nothing and the
    lookup term is the title itself. *)
Theorem returned_title_is_trimmed :
  forall (env : Env) (filename filepath : string) (a : ParsedAnime.t),
    fst (parseAnimeFilename rt env filename filepath) = Returns (Ok a) ->
    Go.TrimSpace (ParsedAnime.Title a) = ParsedAnime.Title a.
Proof.
  intros env filename filepath a.
  rewrite parseAnimeFilename_derived. unfold derived.
  destruct (fst (tryAnimePatterns rt env _ _ _)) as [m |] eqn:Hm;
    [| discriminate].
  apply tryAnimePatterns_title in Hm.
  unfold check. destruct (_ || _); [discriminate |].
  intros [= <-]. unfold finish.
  destruct (Str.is_empty (ParsedAnime.Title m)) eqn:Hempty; simpl.
  - unfold extractTitle. apply TrimSpace_idempotent.
  - destruct Hm as [Hm | [capture Hm]]; rewrite Hm.
    + simpl in Hm. rewrite Hm in Hempty. discriminate Hempty.
    + apply TrimSpace_idempotent.
Qed.

End Trimmed.

(** ** More on the workflow *)

Section MoreWorkflow.

Variable rt : Runtime.

(** *** A file that does not parse *)

(** X8.  When extraction returns an error, processing the file returns it
    wrapped in "failed to parse anime info" and the catalog is not
    contacted: no request is sent and the network is as it was, in dry-run
    mode or not. *)
Theorem parse_failure_sends_nothing :
  forall (env : Env) (filePath : string) (w : World rt) (e : error),
    fst (parseAnimeFilename rt env (Base rt filePath) filePath)
      = Returns (Err e) ->
    let run := processAnimeFile rt env filePath w in
    fst run = Returns (Err (errWrap "failed to parse anime info" e))
    /\ sent (snd run) = sent w
    /\ net (snd run) = net w.
Proof.
  intros env filePath w e Hparse run. subst run.
  unfold processAnimeFile, StateM.bind.
  destruct (parseAnimeFilename rt env (Base rt filePath) filePath)
    as [parsed lines].
  simpl in Hparse. subst parsed.
  rewrite !say_run. cbv beta iota. repeat split.
Qed.

(** *** The import request *)

Lemma manualImport_run env anime seriesID episodeID w :
  url_error rt (api env "/api/v3/manualimport") = None ->
  manualImport rt env anime seriesID episodeID w
  = (imported rt (fst (Do rt (import_request env anime seriesID episodeID)
                         (net w))),
     {| net := snd (Do rt (import_request env anime seriesID episodeID) (net w));
        sent := (sent w ++ [import_request env anime seriesID episodeID])%list;
        logs := logs w |}).
Proof.
  intro Hurl.
  unfold manualImport, StateM.bind, StateM.ret, httpDo, NewRequest, imported.
  rewrite Hurl. fold (import_request env anime seriesID episodeID).
  destruct (Do rt (import_request env anime seriesID episodeID) (net w))
    as [[[status body] | e] n]; simpl; [| reflexivity].
  rewrite is_2xx_spec.
  destruct ((200 <=? status) && (status <? 300)); reflexivity.
Qed.

(** X9.  [manualImport] sends one request, a PUT to /api/v3/manualimport
    whose only file entry has the path of the file, the series ID, the
    parsed season, the one episode ID and the fixed quality "HDTV-1080p"
    and language "English"; it returns nil on a status from 200 to 299, the
    error "manual import failed" with the status on any other status, and
    the transport error when the request fails.  When the URL does not
    parse it sends nothing and returns that error. *)
Theorem manualImport_request :
  forall (env : Env) (anime : ParsedAnime.t) (seriesID episodeID : Z)
         (w : World rt),
    let put := import_request env anime seriesID episodeID in
    let run := manualImport rt env anime seriesID episodeID w in
    match url_error rt (api env "/api/v3/manualimport") with
    | None =>
        sent (snd run) = (sent w ++ [put])%list
        /\ net (snd run) = snd (Do rt put (net w))
        /\ fst run = imported rt (fst (Do rt put (net w)))
    | Some msg =>
        fst run = Err (errLib msg) /\ sent (snd run) = sent w
        /\ net (snd run) = net w
    end
    /\ logs (snd run) = logs w.
Proof.
  intros env anime seriesID episodeID w put run. subst put run.
  destruct (url_error rt (api env "/api/v3/manualimport")) as [msg |] eqn:Hurl.
  - unfold manualImport, StateM.bind, StateM.ret, NewRequest.
    rewrite Hurl. repeat split.
  - rewrite (manualImport_run env anime seriesID episodeID w Hurl).
    repeat split.
Qed.

(** *** Settings without effect *)

Lemma logVerbose_same env env' m :
  verbose env = verbose env' -> logVerbose env m = logVerbose env' m.
Proof. unfold logVerbose. intros ->. reflexivity. Qed.

Lemma applyTransforms_from_same env env' transforms result :
  verbose env = verbose env' ->
  applyTransforms_from rt env transforms result
  = applyTransforms_from rt env' transforms result.
Proof.
  intro Hv. revert result.
  induction transforms as [| t rest IH]; intro result; [reflexivity |].
  simpl. destruct (Compile rt (Search t)) as [regex |].
  - destruct (negb _).
    + rewrite (logVerbose_same env env' _ Hv), IH. reflexivity.
    + apply IH.
  - rewrite IH. reflexivity.
Qed.

Lemma tryAnimePatterns_same env env' patterns cleanName anime :
  verbose env = verbose env' ->
  tryAnimePatterns rt env patterns cleanName anime
  = tryAnimePatterns rt env' patterns cleanName anime.
Proof.
  intro Hv. induction patterns as [| p rest IH]; [reflexivity |].
  simpl. destruct (Compile rt (Pattern p)) as [regex |].
  - destruct (_ >? _); [| exact IH].
    unfold take_match. destruct (index _ _); [| reflexivity].
    destruct (captured_int _ _ _); [| reflexivity].
    destruct (captured_int _ _ _); [| reflexivity].
    rewrite (logVerbose_same env env' _ Hv). reflexivity.
  - rewrite IH. reflexivity.
Qed.

(** The parses under two such environments: the same lines, and the same
    outcome but for the quality and the group of the record. *)
Lemma parse_same_but_labels env env' filename filepath :
  same_but_labels env env' ->
  exists (lines : list LogLine) (core : Outcome (Result ParsedAnime.t)),
    parseAnimeFilename rt env filename filepath
    = (match core with
       | Returns (Ok a) =>
           Returns (Ok (ParsedAnime.set_Group
                          (ParsedAnime.set_Quality a
                             (extractQuality rt env filename))
                          (extractGroup rt env filename)))
       | other => other
       end, lines)
    /\ parseAnimeFilename rt env' filename filepath
       = (match core with
          | Returns (Ok a) =>
              Returns (Ok (ParsedAnime.set_Group
                             (ParsedAnime.set_Quality a
                                (extractQuality rt env' filename))
                             (extractGroup rt env' filename)))
          | other => other
          end, lines).
Proof.
  intros (Hs & Ht & Ha & He & Hv & Hd).
  unfold parseAnimeFilename, applyTransforms, LoggedM.bind.
  rewrite <- Ht, <- Ha.
  rewrite <- (applyTransforms_from_same env env' _ _ Hv).
  destruct (applyTransforms_from rt env _ _) as [cleanName l1].
  rewrite <- (logVerbose_same env env' _ Hv).
  destruct (tell _) as [[] l2].
  rewrite <- (tryAnimePatterns_same env env' _ _ _ Hv).
  destruct (tryAnimePatterns rt env _ _ _) as [[m |] l3].
  - set (a := if Str.is_empty (ParsedAnime.Title m)
              then ParsedAnime.set_Episode
                     (ParsedAnime.set_Title m (extractTitle rt cleanName))
                     (extractEpisode rt env cleanName)
              else m).
    assert (Hf : finish rt env filename cleanName m
                 = ParsedAnime.set_Group
                     (ParsedAnime.set_Quality a (extractQuality rt env filename))
                     (extractGroup rt env filename)) by reflexivity.
    assert (Hf' : finish rt env' filename cleanName m
                  = ParsedAnime.set_Group
                      (ParsedAnime.set_Quality a (extractQuality rt env' filename))
                      (extractGroup rt env' filename)).
    { unfold finish, a, extractEpisode. rewrite He. reflexivity. }
    rewrite Hf, Hf'. simpl.
    destruct (Str.is_empty (ParsedAnime.Title a) || (ParsedAnime.Episode a =? 0)).
    + exists (l1 ++ l2 ++ l3 ++ [])%list, (Returns (Err errCouldNotParse)).
      split; reflexivity.
    + exists (l1 ++ l2 ++ l3 ++ [])%list, (Returns (Ok a)).
      split; reflexivity.
  - exists (l1 ++ l2 ++ l3 ++ [])%list, Panics. split; reflexivity.
Qed.

Lemma findOrCreateSeries_same env env' a a' :
  Sonarr (config env) = Sonarr (config env') ->
  ParsedAnime.Title a = ParsedAnime.Title a' ->
  findOrCreateSeries rt env a = findOrCreateSeries rt env' a'.
Proof.
  intros Hs Ht.
  unfold findOrCreateSeries, findExistingSeries, searchSeries, addSeries,
         new_series, api.
  rewrite Hs, Ht. reflexivity.
Qed.

Lemma findEpisode_same env env' seriesID season episode :
  Sonarr (config env) = Sonarr (config env') ->
  findEpisode rt env seriesID season episode
  = findEpisode rt env' seriesID season episode.
Proof. intro Hs. unfold findEpisode, api. rewrite Hs. reflexivity. Qed.

Lemma manualImport_same env env' a a' seriesID episodeID :
  Sonarr (config env) = Sonarr (config env') ->
  ParsedAnime.FilePath a = ParsedAnime.FilePath a' ->
  ParsedAnime.Season a = ParsedAnime.Season a' ->
  manualImport rt env a seriesID episodeID
  = manualImport rt env' a' seriesID episodeID.
Proof.
  intros Hs Hp Hn. unfold manualImport, api. rewrite Hs, Hp, Hn. reflexivity.
Qed.

Lemma processAnimeFile_same env env' filePath w :
  same_but_labels env env' ->
  processAnimeFile rt env filePath w = processAnimeFile rt env' filePath w.
Proof.
  intro Hsame.
  destruct (parse_same_but_labels env env' (Base rt filePath) filePath Hsame)
    as [lines [core [Hp Hp']]].
  destruct Hsame as (Hs & Ht & Ha & He & Hv & Hd).
  unfold processAnimeFile, StateM.bind. rewrite Hp, Hp', <- Hd.
  rewrite (logVerbose_same env env' _ Hv), !say_run. cbv beta iota.
  destruct core as [[a | e] |]; try reflexivity.
  cbn [ParsedAnime.Title ParsedAnime.Season ParsedAnime.Episode
       ParsedAnime.set_Group ParsedAnime.set_Quality].
  rewrite !say_run. cbv beta iota.
  destruct (dryRun env); [reflexivity |].
  match goal with
  | |- context [findOrCreateSeries rt env ?x ?w0] =>
      match goal with
      | |- context [findOrCreateSeries rt env' ?y w0] =>
          rewrite (findOrCreateSeries_same env env' x y Hs eq_refl)
      end
  end.
  match goal with
  | |- context [findOrCreateSeries rt env' ?y ?w0] =>
      destruct (findOrCreateSeries rt env' y w0) as [[seriesID | e] w1]
  end; [| reflexivity].
  rewrite (findEpisode_same env env' _ _ _ Hs).
  match goal with
  | |- context [findEpisode rt env' ?i ?n ?m w1] =>
      destruct (findEpisode rt env' i n m w1) as [[episodeID | e] w2]
  end; [| reflexivity].
  match goal with
  | |- context [manualImport rt env ?x seriesID episodeID w2] =>
      match goal with
      | |- context [manualImport rt env' ?y seriesID episodeID w2] =>
          rewrite (manualImport_same env env' x y seriesID episodeID Hs
                     eq_refl eq_refl)
      end
  end.
  reflexivity.
Qed.

Lemma processAnimeFiles_loop_same env env' files :
  same_but_labels env env' ->
  forall processed w,
    processAnimeFiles_loop rt env files processed w
    = processAnimeFiles_loop rt env' files processed w.
Proof.
  intro Hsame. induction files as [| file rest IH]; intros processed w;
    [reflexivity |].
  simpl. unfold StateM.bind.
  rewrite (processAnimeFile_same env env' file w Hsame).
  destruct (processAnimeFile rt env' file w) as [[[[] | e] |] w1];
    try reflexivity.
  - apply IH.
  - rewrite !say_run. cbv beta iota. apply IH.
Qed.

(** X10.  The lists of season, quality and group patterns have no effect
    on a run: under two environments that differ only in these lists, the
    scan returns the same result, sends the same requests and writes the
    same log lines.  The season patterns are read nowhere, and the quality
    and the group of a record reach neither a request nor a log line. *)
Theorem label_patterns_have_no_effect :
  forall (env env' : Env) (w : World rt),
    same_but_labels env env' ->
    processAnimeFiles rt env w = processAnimeFiles rt env' w
    /\ (forall filePath,
          processAnimeFile rt env filePath w
          = processAnimeFile rt env' filePath w).
Proof.
  intros env env' w Hsame.
  split; [| intro filePath; apply processAnimeFile_same, Hsame].
  pose proof Hsame as (Hs & _).
  unfold processAnimeFiles, processAnimeFiles_batch, StateM.bind.
  rewrite Hs.
  destruct (_ || _); [reflexivity |].
  destruct (NotExist rt _); [reflexivity |].
  destruct (findVideoFiles rt _) as [videoFiles [e |]]; [reflexivity |].
  rewrite !say_run. cbv beta iota.
  destruct (len videoFiles =? 0); [reflexivity |].
  rewrite (processAnimeFiles_loop_same env env' videoFiles Hsame).
  reflexivity.
Qed.

(** *** The requests of series resolution *)

Lemma findExistingSeries_effect env title w :
  logs (snd (findExistingSeries rt env title w)) = logs w
  /\ (sent (snd (findExistingSeries rt env title w)) = sent w
      \/ sent (snd (findExistingSeries rt env title w))
         = (sent w ++ [list_request env])%list).
Proof.
  unfold findExistingSeries, StateM.bind, StateM.ret, httpDo, NewRequest.
  destruct (url_error rt (api env "/api/v3/series")); simpl; [auto |].
  fold (list_request env).
  destruct (Do rt (list_request env) (net w)) as [[[status body] | e] n];
    simpl; [| auto].
  destruct (decodeSeriesList rt body) as [series | e]; simpl; [| auto].
  destruct (find _ series); simpl; auto.
Qed.

Lemma searchSeries_effect env title w :
  logs (snd (searchSeries rt env title w)) = logs w
  /\ ((exists e, fst (searchSeries rt env title w) = Err e
                 /\ (sent (snd (searchSeries rt env title w)) = sent w
                     \/ sent (snd (searchSeries rt env title w))
                        = (sent w ++ [lookup_request env title])%list))
      \/ (exists candidates status body,
             fst (searchSeries rt env title w) = Ok candidates
             /\ sent (snd (searchSeries rt env title w))
                = (sent w ++ [lookup_request env title])%list
             /\ Do rt (lookup_request env title) (net w)
                = (Ok (status, body), net (snd (searchSeries rt env title w)))
             /\ decodeLookupList rt body = Ok candidates)).
Proof.
  unfold searchSeries, StateM.bind, StateM.ret, httpDo, NewRequest.
  destruct (url_error rt _); simpl; [eauto 6 |].
  fold (lookup_request env title).
  destruct (Do rt (lookup_request env title) (net w))
    as [[[status body] | e] n] eqn:Hdo; simpl; [| eauto 6].
  destruct (decodeLookupList rt body) as [candidates | e] eqn:Hdec; simpl;
    [| eauto 6].
  split; [reflexivity |]. right. exists candidates, status, body. auto.
Qed.

Lemma addSeries_effect env candidate anime w :
  sent (snd (addSeries rt env candidate anime w)) = sent w
  \/ sent (snd (addSeries rt env candidate anime w))
     = (sent w ++ [create_request rt env candidate])%list.
Proof.
  unfold addSeries, StateM.bind, StateM.ret, httpDo, NewRequest.
  destruct (url_error rt _); simpl; [auto |].
  fold (create_request rt env candidate).
  destruct (Do rt (create_request rt env candidate) (net w))
    as [[[status body] | e] n]; simpl; [| auto].
  destruct (negb (is_2xx status)); simpl; [auto |].
  destruct (decodeSeries rt body); simpl; auto.
Qed.


Lemma grows_by {A} (before after : list A) (x : A) :
  after = before \/ after = (before ++ [x])%list ->
  exists l, after = (before ++ l)%list /\ (l = [] \/ l = [x]).
Proof.
  intros [-> | ->]; [exists [] | exists [x]]; split; auto.
  symmetry. apply app_nil_r.
Qed.

(** X11.  Whatever the catalog answers, series resolution sends no import
    request and at most one creation request; the creation request, when
    there is one, is the last request sent, it follows a lookup that the
    catalog answered with a list of candidates, and it carries the series
    built from the first of them. *)
Theorem series_resolution_requests :
  forall (env : Env) (anime : ParsedAnime.t) (w : World rt),
    let title := ParsedAnime.Title anime in
    let run := findOrCreateSeries rt env anime w in
    exists new,
      sent (snd run) = (sent w ++ new)%list
      /\ imports new = []
      /\ (creations new = []
          \/ exists before candidate others status body n n',
               new = (before ++ [lookup_request env title;
                                 create_request rt env candidate])%list
               /\ creations before = []
               /\ creations new = [create_request rt env candidate]
               /\ Do rt (lookup_request env title) n = (Ok (status, body), n')
               /\ decodeLookupList rt body = Ok (candidate :: others)).
Proof.
  intros env anime w title run. subst run.
  unfold findOrCreateSeries. fold title. unfold StateM.bind.
  pose proof (findExistingSeries_effect env title w) as [_ H0].
  apply grows_by in H0 as [l0 [H0 Hl0]].
  destruct (findExistingSeries rt env title w) as [existing w1].
  simpl in H0.
  assert (Hdone : forall id,
             exists new,
               sent (snd (say rt (logInfo (MFoundExisting title id)) w1))
               = (sent w ++ new)%list
               /\ imports new = [] /\ creations new = []).
  { intro id. exists l0. simpl. split; [exact H0 |].
    destruct Hl0 as [-> | ->]; split; reflexivity. }
  assert (Hcreate :
            exists new,
              sent (snd (let '(_, w') :=
                           say rt (logInfo (MSeriesNotFoundSearching title)) w1 in
                         let '(found, w'0) := searchSeries rt env title w' in
                         match found with
                         | Ok [] => StateM.ret (Err (errNoSeriesFound title))
                         | Ok (selectedSeries :: _) =>
                             fun w0 =>
                               let '(_, w'1) :=
                                 say rt (logInfo
                                           (MFoundSeriesOption
                                              (SeriesLookup.Title selectedSeries)
                                              (SeriesLookup.Year selectedSeries)))
                                     w0 in
                               addSeries rt env selectedSeries anime w'1
                         | Err e =>
                             StateM.ret
                               (Err (errWrap "failed to search for series" e))
                         end w'0))
              = (sent w ++ new)%list
              /\ imports new = []
              /\ (creations new = []
                  \/ exists before candidate others status body n n',
                       new = (before ++ [lookup_request env title;
                                         create_request rt env candidate])%list
                       /\ creations before = []
                       /\ creations new = [create_request rt env candidate]
                       /\ Do rt (lookup_request env title) n
                          = (Ok (status, body), n')
                       /\ decodeLookupList rt body = Ok (candidate :: others))).
  { rewrite say_run. cbv beta iota.
    set (w2 := add_log rt w1 (logInfo (MSeriesNotFoundSearching title))).
    pose proof (searchSeries_effect env title w2) as [_ Hsearch].
    destruct (searchSeries rt env title w2) as [found w3].
    simpl in Hsearch.
    destruct Hsearch as [[e [-> Hs]] | [cs [status [body [-> [Hs [Hdo Hdec]]]]]]].
    - apply grows_by in Hs as [l1 [Hs Hl1]]. simpl in Hs.
      exists (l0 ++ l1)%list. simpl.
      split; [rewrite Hs, H0, app_assoc; reflexivity |].
      destruct Hl0 as [-> | ->], Hl1 as [-> | ->]; split; auto.
    - simpl in Hs. destruct cs as [| first others].
      + exists (l0 ++ [lookup_request env title])%list. simpl.
        split; [rewrite Hs, H0, app_assoc; reflexivity |].
        destruct Hl0 as [-> | ->]; split; auto.
      + rewrite say_run. cbv beta iota.
        set (w4 := add_log rt w3 _).
        pose proof (addSeries_effect env first anime w4) as Hadd.
        apply grows_by in Hadd as [l2 [Hadd Hl2]].
        exists (l0 ++ [lookup_request env title] ++ l2)%list.
        split; [rewrite Hadd; simpl; rewrite Hs, H0, <- !app_assoc;
                reflexivity |].
        destruct Hl2 as [-> | ->].
        * destruct Hl0 as [-> | ->]; split; auto.
        * split; [destruct Hl0 as [-> | ->]; reflexivity |].
          right. exists l0, first, others, status, body, (net w2), (net w3).
          repeat split; try assumption;
            destruct Hl0 as [-> | ->]; reflexivity. }
  destruct existing as [id | e].
  - destruct (id >? 0).
    + destruct (Hdone id) as [new [H1 [H2 H3]]].
      exists new. rewrite say_run in *. auto.
    + exact Hcreate.
  - exact Hcreate.
Qed.

Lemma findOrCreateSeries_without_list env anime w e n1 status2 body2 n2
  candidates :
  url_error rt (api env "/api/v3/series") = None ->
  (Do rt (list_request env) (net w) = (Err e, n1)
   \/ exists status body,
        Do rt (list_request env) (net w) = (Ok (status, body), n1)
        /\ decodeSeriesList rt body = Err e) ->
  url_error rt (ReqURL (lookup_request env (ParsedAnime.Title anime))) = None ->
  Do rt (lookup_request env (ParsedAnime.Title anime)) n1
    = (Ok (status2, body2), n2) ->
  decodeLookupList rt body2 = Ok candidates ->
  let searched :=
    {| net := n2;
       sent := (sent w ++ [list_request env;
                           lookup_request env (ParsedAnime.Title anime)])%list;
       logs := (logs w ++ [(INFO, MSeriesNotFoundSearching
                                    (ParsedAnime.Title anime))])%list |} in
  findOrCreateSeries rt env anime w
  = match candidates with
    | [] => (Err (errNoSeriesFound (ParsedAnime.Title anime)), searched)
    | first :: _ =>
        addSeries rt env first anime
          (add_log rt searched
             [(INFO, MFoundSeriesOption (SeriesLookup.Title first)
                                        (SeriesLookup.Year first))])
    end.
Proof.
  intros Hurl Hlist Hurl2 Hdo2 Hdec2 searched.
  set (title := ParsedAnime.Title anime) in *.
  assert (Hfirst : exists e',
             findExistingSeries rt env title w
             = (Err e', {| net := n1; sent := (sent w ++ [list_request env])%list;
                           logs := logs w |})).
  { unfold findExistingSeries, StateM.bind, StateM.ret, httpDo, NewRequest.
    rewrite Hurl. fold (list_request env).
    destruct Hlist as [Hdo | [status [body [Hdo Hdec]]]]; rewrite Hdo; simpl.
    - eexists. reflexivity.
    - rewrite Hdec. eexists. reflexivity. }
  destruct Hfirst as [e' Hfirst].
  set (w1 := add_log rt
               {| net := n1; sent := (sent w ++ [list_request env])%list;
                  logs := logs w |}
               (logInfo (MSeriesNotFoundSearching title))).
  assert (Hlookup : NewRequest rt "GET"
                      (api env "/api/v3/series/lookup?term=" ++ title) NoBody
                    = Ok (lookup_request env title)).
  { unfold NewRequest. simpl in Hurl2. rewrite Hurl2. reflexivity. }
  pose proof (searchSeries_fetched rt env title w1 (lookup_request env title)
                status2 body2 n2 candidates Hlookup Hdo2 Hdec2) as Hsearch.
  unfold findOrCreateSeries. fold title. unfold StateM.bind.
  rewrite Hfirst, say_run. cbv beta iota. fold w1. rewrite Hsearch.
  subst searched w1. simpl. rewrite <- app_assoc. simpl.
  destruct candidates as [| first rest]; reflexivity.
Qed.

(** X12.  A series list that cannot be read does not fail the file: when
    the request for the list fails in transport, or its answer is not a
    list of series, series resolution goes on as if the series were
    absent: it looks the title up and, with a first candidate, sends a
    creation request for it and returns what [created] tells of the
    answer.  The error of the list request is not returned. *)
Theorem unreadable_series_list_leads_to_creation :
  forall (env : Env) (anime : ParsedAnime.t) (w : World rt) (e : error)
         (n1 n2 : Net rt) (status2 : Z) (body2 : Body rt)
         (first : SeriesLookup.t) (others : list SeriesLookup.t),
    url_error rt (api env "/api/v3/series") = None ->
    (Do rt (list_request env) (net w) = (Err e, n1)
     \/ exists status body,
          Do rt (list_request env) (net w) = (Ok (status, body), n1)
          /\ decodeSeriesList rt body = Err e) ->
    url_error rt (ReqURL (lookup_request env (ParsedAnime.Title anime))) = None ->
    Do rt (lookup_request env (ParsedAnime.Title anime)) n1
      = (Ok (status2, body2), n2) ->
    decodeLookupList rt body2 = Ok (first :: others) ->
    let run := findOrCreateSeries rt env anime w in
    sent (snd run)
    = (sent w ++ [list_request env;
                  lookup_request env (ParsedAnime.Title anime);
                  create_request rt env first])%list
    /\ fst run = created rt (fst (Do rt (create_request rt env first) n2)).
Proof.
  intros env anime w e n1 n2 status2 body2 first others
         Hurl Hlist Hurl2 Hdo2 Hdec2 run.
  pose proof (findOrCreateSeries_without_list env anime w e n1 status2 body2 n2
                (first :: others) Hurl Hlist Hurl2 Hdo2 Hdec2) as Hrun.
  simpl in Hrun. fold run in Hrun.
  assert (Hget : NewRequest rt "GET" (api env "/api/v3/series") NoBody
                 = Ok (list_request env)).
  { unfold NewRequest. rewrite Hurl. reflexivity. }
  match type of Hrun with
  | _ = addSeries rt env first anime ?w3 =>
      destruct (addSeries_posts rt env first anime w3 (list_request env) Hget)
        as [Hr Hs]
  end.
  rewrite <- Hrun in Hr, Hs. simpl in Hr, Hs.
  split; [| exact Hr].
  rewrite Hs, <- app_assoc. reflexivity.
Qed.

(** *** A file that succeeds *)




End MoreWorkflow.

(** ** More on the scan *)

Section MoreBatch.

Variable rt : Runtime.

Lemma loop_outcome env files :
  forall processed w,
    fst (processAnimeFiles_loop rt env files processed w) = Panics
    \/ exists k, fst (processAnimeFiles_loop rt env files processed w) = Returns k.
Proof.
  induction files as [| file rest IH]; intros processed w; simpl.
  - right. exists processed. reflexivity.
  - unfold StateM.bind.
    destruct (processAnimeFile rt env file w) as [[[[] | e] |] w1].
    + apply IH.
    + rewrite say_run. cbv beta iota. apply IH.
    + left. reflexivity.
Qed.

Lemma batch_outcome env files w :
  fst (processAnimeFiles_batch rt env files w) = Panics
  \/ fst (processAnimeFiles_batch rt env files w) = Returns (Ok tt).
Proof.
  unfold processAnimeFiles_batch, StateM.bind.
  destruct (loop_outcome env files 0 w) as [H | [k H]];
    destruct (processAnimeFiles_loop rt env files 0 w) as [[processed |] w1];
    simpl in H; try discriminate H; [left | right]; reflexivity.
Qed.

(** X14.  The scan returns an error in three cases only, before any file
    is processed and leaving nothing behind (no log line, no request): the
    URL or the API key is empty; the downloads folder does not exist; the
    walk of the folder fails.  A failure of a file is never an error of
    the scan. *)
Theorem scan_errors :
  forall (env : Env) (w : World rt) (e : error),
    let sonarr := Sonarr (config env) in
    (fst (processAnimeFiles rt env w) = Returns (Err e) <->
     ((URL sonarr = EmptyString \/ APIKey sonarr = EmptyString)
     /\ e = errConfigRequired
     \/ (URL sonarr <> EmptyString /\ APIKey sonarr <> EmptyString)
        /\ (NotExist rt (DownloadsFolder sonarr) = true
            /\ e = errDownloadsNotFound (DownloadsFolder sonarr)
            \/ NotExist rt (DownloadsFolder sonarr) = false
               /\ exists cause,
                    snd (WalkFiles rt (DownloadsFolder sonarr)) = Some cause
                    /\ e = errWrap "failed to scan for video files" cause)))
    /\ (fst (processAnimeFiles rt env w) = Returns (Err e) ->
        snd (processAnimeFiles rt env w) = w).
Proof.
  intros env w e sonarr. subst sonarr.
  unfold processAnimeFiles, findVideoFiles.
  destruct (Str.is_empty (URL (Sonarr (config env)))) eqn:Hu;
    [apply is_empty_true in Hu | apply is_empty_false in Hu].
  { simpl. split; [| reflexivity]. split.
    - intros [= <-]. left. auto.
    - intros [[_ ->] | [[H _] _]]; [reflexivity | contradiction]. }
  destruct (Str.is_empty (APIKey (Sonarr (config env)))) eqn:Ha;
    [apply is_empty_true in Ha | apply is_empty_false in Ha].
  { simpl. split; [| reflexivity]. split.
    - intros [= <-]. left. auto.
    - intros [[_ ->] | [[_ H] _]]; [reflexivity | contradiction]. }
  cbn [orb].
  destruct (NotExist rt (DownloadsFolder (Sonarr (config env)))) eqn:Hn.
  { simpl. split; [| reflexivity]. split.
    - intros [= <-]. right. split; auto.
    - intros [[[H | H] _] | [_ [[_ ->] | [H _]]]];
        try contradiction; [reflexivity | discriminate H]. }
  destruct (WalkFiles rt (DownloadsFolder (Sonarr (config env))))
    as [paths [cause |]] eqn:Hw.
  { simpl. split; [| reflexivity]. split.
    - intros [= <-]. right. split; [auto |]. right. split; [reflexivity |].
      exists cause. auto.
    - intros [[[H | H] _] | [_ [[H _] | [_ [c [Hc ->]]]]]];
        try contradiction; [discriminate H |].
      injection Hc as ->. reflexivity. }
  cbv beta iota. unfold StateM.bind. rewrite say_run. cbv beta iota.
  set (videoFiles := filter _ paths).
  set (w1 := add_log rt w _).
  assert (Hcases : forall run : Outcome (Result unit) * World rt,
             fst run <> Returns (Err e) ->
             (fst run = Returns (Err e) <->
              (URL (Sonarr (config env)) = EmptyString
               \/ APIKey (Sonarr (config env)) = EmptyString)
              /\ e = errConfigRequired
              \/ (URL (Sonarr (config env)) <> EmptyString
                  /\ APIKey (Sonarr (config env)) <> EmptyString)
                 /\ (false = true
                     /\ e = errDownloadsNotFound
                              (DownloadsFolder (Sonarr (config env)))
                     \/ false = false
                        /\ exists cause,
                             snd (paths, @None error) = Some cause
                             /\ e = errWrap "failed to scan for video files"
                                      cause))
             /\ (fst run = Returns (Err e) -> snd run = w)).
  { intros run Hnot. split; [| intro H; contradiction].
    split; [intro H; contradiction |].
    intros [[[H | H] _] | [_ [[H _] | [_ [c [Hc _]]]]]];
      try contradiction; discriminate. }
  apply Hcases.
  destruct (len videoFiles =? 0); [discriminate |].
  destruct (batch_outcome env videoFiles w1) as [H | H]; rewrite H; discriminate.
Qed.

(** X15.  When the folder holds no video file, the scan returns nil after
    two lines, "Found 0 video files" and "No video files to process": it
    sends nothing and writes no "Processing complete" line. *)
Theorem scan_without_video_files :
  forall (env : Env) (w : World rt),
    let sonarr := Sonarr (config env) in
    URL sonarr <> EmptyString ->
    APIKey sonarr <> EmptyString ->
    NotExist rt (DownloadsFolder sonarr) = false ->
    findVideoFiles rt (DownloadsFolder sonarr) = ([], None) ->
    processAnimeFiles rt env w
    = (Returns (Ok tt),
       add_log rt w [ (INFO, MFoundVideoFiles 0 (DownloadsFolder sonarr));
                      (INFO, MNoVideoFiles) ]).
Proof.
  intros env w sonarr Hu Ha Hn Hfiles. subst sonarr.
  unfold processAnimeFiles.
  apply is_empty_false in Hu, Ha. rewrite Hu, Ha, Hn, Hfiles.
  cbn [orb]. unfold StateM.bind. rewrite !say_run.
  unfold add_log. simpl. rewrite <- app_assoc. reflexivity.
Qed.

(** X16.  The files the scan processes are the files of the walk whose
    extension, in lower case, is one of the ten video extensions, in the
    order of the walk.  With settings that pass the checks, at least one
    such file and no negative title group, the scan writes "Found N video
    files", processes the N files in that order, writes "Processing
    complete" with the number of successes, between 0 and N, and returns
    nil, however many files failed. *)
Theorem scan_processes_the_video_files :
  forall (env : Env) (w : World rt) (paths : list string),
    let sonarr := Sonarr (config env) in
    let videoFiles :=
      filter (fun path =>
                existsb (String.eqb (ToLower rt (Go.Ext path))) videoExtensions)
             paths in
    URL sonarr <> EmptyString ->
    APIKey sonarr <> EmptyString ->
    NotExist rt (DownloadsFolder sonarr) = false ->
    WalkFiles rt (DownloadsFolder sonarr) = (paths, None) ->
    videoFiles <> [] ->
    (forall p, In p (AnimePatterns (Parsing (config env))) -> 0 <= TitleGroup p) ->
    exists (rs : list (Result unit)) (w' : World rt),
      batch_run rt env videoFiles
        (add_log rt w [(INFO, MFoundVideoFiles (len videoFiles)
                                (DownloadsFolder sonarr))])
        rs w'
      /\ length rs = length videoFiles
      /\ processAnimeFiles rt env w
         = (Returns (Ok tt),
            add_log rt w'
              [(INFO, MProcessingComplete (successes rs) (len videoFiles))])
      /\ 0 <= successes rs <= len videoFiles.
Proof.
  intros env w paths sonarr videoFiles Hu Ha Hn Hwalk Hsome Hwf.
  subst sonarr.
  destruct (batch_run_exists rt env videoFiles Hwf
              (add_log rt w [(INFO, MFoundVideoFiles (len videoFiles)
                                      (DownloadsFolder (Sonarr (config env))))]))
    as [rs [w' [Hb Hl]]].
  exists rs, w'. split; [exact Hb |]. split; [exact Hl |]. split.
  - unfold processAnimeFiles, findVideoFiles.
    apply is_empty_false in Hu, Ha. rewrite Hu, Ha, Hn, Hwalk.
    cbn [orb]. fold videoFiles.
    unfold StateM.bind. rewrite say_run. cbv beta iota.
    destruct (Z.eqb_spec (len videoFiles) 0) as [H0 | _].
    + destruct videoFiles; [congruence |]. unfold len in H0.
      simpl length in H0. lia.
    + unfold processAnimeFiles_batch, StateM.bind, logInfo.
      rewrite (loop_counts rt env videoFiles _ rs w' Hb 0), say_run.
      reflexivity.
  - pose proof (successes_failures rs) as Hsum.
    unfold successes, failures, len in *. rewrite Hl in Hsum. lia.
Qed.

End MoreBatch.

(** ** The other program: facts *)

Section ClassicFacts.

Variable rt : Runtime.
Variable Rel : string -> string -> Classic.Result string.
Variable Dir : string -> string.
Variable Net : Type.
Variable Do : Classic.Request -> Net -> Classic.Result Z * Net.
Variable Walk : string -> list string * option Classic.error.


Lemma classic_say_run (l : list Classic.LogLine) (w : Classic.World Net) :
  Classic.say l w = (tt, Classic.add_log w l).
Proof. reflexivity. Qed.

Lemma importToSonarr_run env filePath fileName w :
  url_error rt (Classic.command_url env) = None ->
  let req := {| Classic.Method := "POST";
                Classic.ReqURL := Classic.command_url env;
                Classic.ReqBody := Classic.scan_command Dir filePath |} in
  fst (Classic.importToSonarr rt Dir Net Do env filePath fileName w)
  = Classic.triggered (fst (Do req (Classic.net w)))
  /\ Classic.sent (snd (Classic.importToSonarr rt Dir Net Do env filePath fileName w))
     = (Classic.sent w ++ [req])%list
  /\ Classic.net (snd (Classic.importToSonarr rt Dir Net Do env filePath fileName w))
     = snd (Do req (Classic.net w)).
Proof.
  intros Hurl req.
  unfold Classic.importToSonarr, Classic.bind, Classic.ret. rewrite Hurl.
  rewrite classic_say_run. cbv beta iota. fold req. simpl Classic.net.
  destruct (Do req (Classic.net w)) as [[status | e] n]; simpl;
    [| repeat split].
  assert (Hs : (status <? 200) || (status >=? 300)
               = negb ((200 <=? status) && (status <? 300))).
  { destruct (Z.ltb_spec status 200), (Z.geb_spec status 300),
             (Z.leb_spec 200 status), (Z.ltb_spec status 300);
      simpl; try reflexivity; lia. }
  rewrite Hs. destruct ((200 <=? status) && (status <? 300)); simpl;
    repeat split.
Qed.

(** X17.  In dry-run mode the other program contacts nothing: for every
    file, processing returns nil, sends no request and leaves the network
    as it was. *)
Theorem classic_dry_run_sends_nothing :
  forall (env : Classic.Env) (filePath : string) (w : Classic.World Net),
    Classic.dryRun env = true ->
    fst (Classic.processVideoFile rt Rel Dir Net Do env filePath w) = Classic.Ok tt
    /\ Classic.sent (snd (Classic.processVideoFile rt Rel Dir Net Do env filePath w)) = Classic.sent w
    /\ Classic.net (snd (Classic.processVideoFile rt Rel Dir Net Do env filePath w)) = Classic.net w.
Proof.
  intros env filePath w Hdry.
  unfold Classic.processVideoFile, Classic.bind, Classic.ret.
  destruct (Classic.applyTransforms rt env (Base rt filePath))
    as [transformedName lines].
  rewrite !classic_say_run. cbv beta iota. rewrite Hdry.
  rewrite !classic_say_run. repeat split.
Qed.

(** X18.  Outside dry-run mode, with a URL that parses, the other program
    sends exactly one request for a file: a POST to /api/v3/command with
    the name "DownloadedEpisodesScan" and the folder ([filepath.Dir]) of
    the mapped path of the file; it returns nil on a status from 200 to
    299, "import request failed" with the status on any other status, and
    the wrapped transport error when the request fails. *)
Theorem classic_sends_one_scan_command :
  forall (env : Classic.Env) (filePath : string) (w : Classic.World Net),
    Classic.dryRun env = false ->
    url_error rt (Classic.command_url env) = None ->
    let run := Classic.processVideoFile rt Rel Dir Net Do env filePath w in
    Classic.sent (snd run) = (Classic.sent w ++ [Classic.scan_request rt Rel Dir env filePath])%list
    /\ fst run = Classic.triggered (fst (Do (Classic.scan_request rt Rel Dir env filePath) (Classic.net w)))
    /\ Classic.net (snd run)
       = snd (Do (Classic.scan_request rt Rel Dir env filePath) (Classic.net w)).
Proof.
  intros env filePath w Hlive Hurl run. subst run.
  unfold Classic.processVideoFile, Classic.bind, Classic.ret.
  destruct (Classic.applyTransforms rt env (Base rt filePath))
    as [transformedName lines].
  rewrite !classic_say_run. cbv beta iota. rewrite Hlive.
  match goal with
  | |- context [Classic.importToSonarr rt Dir Net Do env ?p ?n ?w0] =>
      destruct (importToSonarr_run env p n w0 Hurl) as [Hr [Hs Hn]]
  end.
  rewrite Hr, Hs, Hn. repeat split.
Qed.

Lemma classic_applyTransforms_value env env' transforms result :
  Classic.verbose env = Classic.verbose env' ->
  Classic.applyTransforms_from rt env transforms result
  = Classic.applyTransforms_from rt env' transforms result.
Proof.
  intro Hv. revert result.
  induction transforms as [| t rest IH]; intro result; [reflexivity |].
  simpl. destruct (Compile rt (Search t)) as [regex |].
  - destruct (negb _); [| apply IH].
    rewrite IH. unfold Classic.logVerbose. rewrite Hv. reflexivity.
  - rewrite IH. reflexivity.
Qed.

(** X19.  In the other program the transforms do not reach the catalog:
    under two environments that differ only in their transforms, a file
    gives the same result, the same requests and the same network state.
    The transformed name is written to the log and nothing else. *)
Theorem classic_transforms_only_logged :
  forall (env env' : Classic.Env) (filePath : string) (w : Classic.World Net),
    Classic.same_but_transforms env env' ->
    fst (Classic.processVideoFile rt Rel Dir Net Do env filePath w) = fst (Classic.processVideoFile rt Rel Dir Net Do env' filePath w)
    /\ Classic.sent (snd (Classic.processVideoFile rt Rel Dir Net Do env filePath w))
       = Classic.sent (snd (Classic.processVideoFile rt Rel Dir Net Do env' filePath w))
    /\ Classic.net (snd (Classic.processVideoFile rt Rel Dir Net Do env filePath w))
       = Classic.net (snd (Classic.processVideoFile rt Rel Dir Net Do env' filePath w)).
Proof.
  intros env env' filePath w (Hs & Hv & Hd).
  unfold Classic.processVideoFile, Classic.bind, Classic.ret.
  destruct (Classic.applyTransforms rt env (Base rt filePath)) as [t1 l1].
  destruct (Classic.applyTransforms rt env' (Base rt filePath)) as [t2 l2].
  rewrite !classic_say_run. cbv beta iota. rewrite <- Hd.
  destruct (Classic.dryRun env).
  - rewrite !classic_say_run. repeat split.
  - unfold Classic.importToSonarr, Classic.convertToMappingPath,
           Classic.command_url, Classic.bind, Classic.ret.
    rewrite <- Hs.
    destruct (url_error rt _); [repeat split |].
    rewrite !classic_say_run. cbv beta iota. simpl Classic.net.
    simpl Classic.sent.
    match goal with
    | |- context [Do ?r (Classic.net w)] =>
        destruct (Do r (Classic.net w)) as [[status | e] n]
    end; [| repeat split].
    destruct ((status <? 200) || (status >=? 300)); repeat split.
Qed.

Lemma classic_loop_exists env files :
  forall w, exists rs w',
    Classic.loop_run rt Rel Dir Net Do env files w rs w' /\ length rs = length files.
Proof.
  induction files as [| file rest IH]; intro w.
  - exists [], w. split; [constructor | reflexivity].
  - destruct (Classic.processVideoFile rt Rel Dir Net Do env file w) as [[[] | e] w1] eqn:Hrun.
    + destruct (IH w1) as [rs [w' [Hb Hl]]].
      exists (Classic.Ok tt :: rs), w'. split.
      * eapply Classic.loop_ok; eassumption.
      * simpl. rewrite Hl. reflexivity.
    + destruct (IH (Classic.add_log w1
                      [(ERROR, Classic.MFailedToProcess (Base rt file) e)]))
        as [rs [w' [Hb Hl]]].
      exists (Classic.Err e :: rs), w'. split.
      * eapply Classic.loop_failed; eassumption.
      * simpl. rewrite Hl. reflexivity.
Qed.

Lemma classic_loop_counts env files w rs w' :
  Classic.loop_run rt Rel Dir Net Do env files w rs w' ->
  forall processed,
    Classic.scan_loop rt Rel Dir Net Do env files processed w
    = (processed + len (filter Classic.succeeded rs), w').
Proof.
  induction 1 as [w | file rest w w1 w' rs Hrun _ IH
                    | file rest e w w1 w' rs Hrun _ IH]; intro processed.
  - simpl. unfold Classic.ret, len. simpl. rewrite Z.add_0_r. reflexivity.
  - simpl. unfold Classic.bind. rewrite Hrun, IH.
    unfold len. cbn [filter Classic.succeeded length].
    rewrite Nat2Z.inj_succ. f_equal. lia.
  - simpl. unfold Classic.bind. rewrite Hrun, classic_say_run. cbv beta iota.
    rewrite IH. reflexivity.
Qed.

(** X20.  For every configuration, the loop of the other program attempts
    every file of the list, in order: a file that fails leaves an error
    line and the loop goes on, and the count it returns is the number of
    files that succeeded.  Nothing in this program panics, so no
    condition on the configuration is needed. *)
Theorem classic_loop_attempts_every_file :
  forall (env : Classic.Env) (videoFiles : list string) (w : Classic.World Net),
    exists (rs : list (Classic.Result unit)) (w' : Classic.World Net),
      Classic.loop_run rt Rel Dir Net Do env videoFiles w rs w'
      /\ length rs = length videoFiles
      /\ Classic.scan_loop rt Rel Dir Net Do env videoFiles 0 w
         = (len (filter Classic.succeeded rs), w')
      /\ 0 <= len (filter Classic.succeeded rs) <= len videoFiles.
Proof.
  intros env videoFiles w.
  destruct (classic_loop_exists env videoFiles w) as [rs [w' [Hb Hl]]].
  exists rs, w'. split; [exact Hb |]. split; [exact Hl |]. split.
  - rewrite (classic_loop_counts env videoFiles w rs w' Hb 0). reflexivity.
  - unfold len. rewrite <- Hl.
    pose proof (filter_length_le Classic.succeeded rs). lia.
Qed.

End ClassicFacts.

(** ** The further properties on concrete inputs *)

Lemma returned_record_fields_witness :
  ParsedAnime.OriginalFilename Demo.show12 = "Show Name [12].mkv"
  /\ ParsedAnime.FilePath Demo.show12 = GoRt.in_downloads "Show Name [12].mkv"
  /\ ParsedAnime.Year Demo.show12 = 0
  /\ ParsedAnime.Quality Demo.show12
     = extractQuality GoRt.rt GoRt.defaultEnv "Show Name [12].mkv"
  /\ ParsedAnime.Group Demo.show12
     = extractGroup GoRt.rt GoRt.defaultEnv "Show Name [12].mkv"
  /\ ParsedAnime.Title Demo.show12 <> EmptyString
  /\ ParsedAnime.Episode Demo.show12 <> 0.
Proof.
  apply (returned_record_fields GoRt.rt GoRt.defaultEnv "Show Name [12].mkv"
           (GoRt.in_downloads "Show Name [12].mkv") Demo.show12).
  vm_compute. reflexivity.
Defined.

Lemma returned_title_is_trimmed_witness :
  Go.TrimSpace (ParsedAnime.Title Demo.show12) = ParsedAnime.Title Demo.show12.
Proof.
  apply (returned_title_is_trimmed GoRt.rt GoRt.defaultEnv "Show Name [12].mkv"
           (GoRt.in_downloads "Show Name [12].mkv") Demo.show12).
  vm_compute. reflexivity.
Defined.



Lemma default_group_needs_closing_byte_witness :
  extractGroup GoRt.rt GoRt.defaultEnv "[Group] Show Name - 07 (1080p).mkv"
  = "Unknown".
Proof.
  apply (default_group_needs_closing_byte GoRt.defaultEnv
           "[Group] Show Name - 07 (1080p).mkv").
  - reflexivity.
  - vm_compute. discriminate.
  - vm_compute. discriminate.
Defined.


Lemma parse_failure_sends_nothing_witness :
  let run := processAnimeFile GoRt.rt GoRt.liveEnv
               (GoRt.in_downloads "randomfile.mkv")
               (GoRt.start (GoRt.catalog [])) in
  fst run = Returns (Err (errWrap "failed to parse anime info" errCouldNotParse))
  /\ sent (snd run) = []
  /\ net (snd run) = GoRt.catalog [].
Proof.
  apply (parse_failure_sends_nothing GoRt.rt GoRt.liveEnv
           (GoRt.in_downloads "randomfile.mkv")
           (GoRt.start (GoRt.catalog [])) errCouldNotParse).
  vm_compute. reflexivity.
Defined.

Lemma unreadable_series_list_leads_to_creation_witness :
  let known := [GoRt.series_titled 5 "Show Name"] in
  let anime := GoRt.parsed "Show Name" 1 2 in
  let first := GoRt.candidate "Show Name" "show-name" 2020 101 in
  let run := findOrCreateSeries Demo.flaky GoRt.liveEnv anime
               (Demo.world Demo.flaky (GoRt.catalog known)) in
  sent (snd run)
  = [ list_request GoRt.liveEnv;
      lookup_request GoRt.liveEnv "Show Name";
      create_request Demo.flaky GoRt.liveEnv first ]
  /\ fst run
     = created Demo.flaky
         (fst (Do Demo.flaky (create_request Demo.flaky GoRt.liveEnv first)
                 (GoRt.catalog known))).
Proof.
  intros known anime first.
  apply (unreadable_series_list_leads_to_creation Demo.flaky GoRt.liveEnv anime
           (Demo.world Demo.flaky (GoRt.catalog known))
           (errLib "connection reset by peer")
           (GoRt.catalog known) (GoRt.catalog known)
           200 (GoRt.BLookupList GoRt.two_candidates)
           first (tl GoRt.two_candidates)).
  - vm_compute. reflexivity.
  - left. vm_compute. reflexivity.
  - vm_compute. reflexivity.
  - vm_compute. reflexivity.
  - vm_compute. reflexivity.
Defined.


Lemma label_patterns_have_no_effect_witness :
  let w := GoRt.start (GoRt.catalog []) in
  processAnimeFiles GoRt.rt GoRt.liveEnv w
  = processAnimeFiles GoRt.rt Demo.unlabelledEnv w
  /\ (forall filePath,
        processAnimeFile GoRt.rt GoRt.liveEnv filePath w
        = processAnimeFile GoRt.rt Demo.unlabelledEnv filePath w).
Proof.
  intro w.
  apply (label_patterns_have_no_effect GoRt.rt GoRt.liveEnv Demo.unlabelledEnv w).
  repeat split.
Defined.

Lemma scan_without_video_files_witness :
  let w := GoRt.start (GoRt.catalog []) in
  processAnimeFiles GoRt.rt GoRt.liveEnv w
  = (Returns (Ok tt),
     add_log GoRt.rt w
       [ (INFO, MFoundVideoFiles 0 (DownloadsFolder (Sonarr (config GoRt.liveEnv))));
         (INFO, MNoVideoFiles) ]).
Proof.
  intro w.
  apply (scan_without_video_files GoRt.rt GoRt.liveEnv w).
  - vm_compute. discriminate.
  - vm_compute. discriminate.
  - reflexivity.
  - reflexivity.
Defined.

Lemma scan_processes_the_video_files_witness :
  let rt := Demo.with_files Demo.three_paths in
  let w := Demo.world rt (GoRt.catalog []) in
  let folder := DownloadsFolder (Sonarr (config GoRt.liveEnv)) in
  let videoFiles := [ GoRt.in_downloads "Show Name [01].mkv";
                      GoRt.in_downloads "randomfile.MKV" ] in
  exists (rs : list (Result unit)) (w' : World rt),
    batch_run rt GoRt.liveEnv videoFiles
      (add_log rt w [(INFO, MFoundVideoFiles 2 folder)]) rs w'
    /\ length rs = 2%nat
    /\ processAnimeFiles rt GoRt.liveEnv w
       = (Returns (Ok tt),
          add_log rt w' [(INFO, MProcessingComplete (successes rs) 2)])
    /\ 0 <= successes rs <= 2.
Proof.
  intros rt w folder videoFiles.
  apply (scan_processes_the_video_files rt GoRt.liveEnv w Demo.three_paths).
  - vm_compute. discriminate.
  - vm_compute. discriminate.
  - reflexivity.
  - reflexivity.
  - vm_compute. discriminate.
  - intros p Hp. vm_compute in Hp.
    repeat (destruct Hp as [Hp | Hp]; [subst p; vm_compute; discriminate |]).
    destruct Hp.
Defined.

Lemma classic_dry_run_sends_nothing_witness :
  let run := Classic.processVideoFile GoRt.rt Classic.rel_below Classic.dir_of
               Z Classic.answer_with (Classic.demoEnv true)
               "/media/shows/Show_Name_S01E02.mkv" (Classic.demoStart 200) in
  fst run = Classic.Ok tt
  /\ Classic.sent (snd run) = []
  /\ Classic.net (snd run) = 200.
Proof.
  apply (classic_dry_run_sends_nothing GoRt.rt Classic.rel_below Classic.dir_of
           Z Classic.answer_with (Classic.demoEnv true)
           "/media/shows/Show_Name_S01E02.mkv" (Classic.demoStart 200)).
  reflexivity.
Defined.

Lemma classic_sends_one_scan_command_witness :
  let filePath := "/media/shows/Show_Name_S01E02.mkv" in
  let env := Classic.demoEnv false in
  let post := Classic.scan_request GoRt.rt Classic.rel_below Classic.dir_of
                env filePath in
  let run := Classic.processVideoFile GoRt.rt Classic.rel_below Classic.dir_of
               Z Classic.answer_with env filePath (Classic.demoStart 503) in
  Classic.sent (snd run) = [post]
  /\ fst run = Classic.triggered (fst (Classic.answer_with post 503))
  /\ Classic.net (snd run) = snd (Classic.answer_with post 503).
Proof.
  intros filePath env post.
  apply (classic_sends_one_scan_command GoRt.rt Classic.rel_below Classic.dir_of
           Z Classic.answer_with env filePath (Classic.demoStart 503)).
  - reflexivity.
  - vm_compute. reflexivity.
Defined.

Lemma classic_transforms_only_logged_witness :
  let filePath := "/media/shows/Show_Name_S01E02.mkv" in
  let run env := Classic.processVideoFile GoRt.rt Classic.rel_below
                   Classic.dir_of Z Classic.answer_with env filePath
                   (Classic.demoStart 200) in
  fst (run (Classic.demoEnv false)) = fst (run Classic.plainEnv)
  /\ Classic.sent (snd (run (Classic.demoEnv false)))
     = Classic.sent (snd (run Classic.plainEnv))
  /\ Classic.net (snd (run (Classic.demoEnv false)))
     = Classic.net (snd (run Classic.plainEnv)).
Proof.
  intros filePath run.
  apply (classic_transforms_only_logged GoRt.rt Classic.rel_below Classic.dir_of
           Z Classic.answer_with (Classic.demoEnv false) Classic.plainEnv
           filePath (Classic.demoStart 200)).
  repeat split.
Defined.
